(** * Wordly: the lookup pipeline and its bounded word lists

    A shallow embedding of [app.js] (Wordly 2.0.0): the storage adapter
    [StorageManager], the lookup client [DictionaryAPI] and the state logic
    of [WordlyApp], followed by the properties of the written specification
    that concern them.

    Conventions of the embedding.
    - A JavaScript string is the list of its UTF-16 code units ([list N]).
    - The browser is explicit state: [localStorage] is a finite map with a
      quota, the DOM is the record [UI], and the outside world (the network,
      [alert]) is observed through a trace of events.
    - A function that can throw returns a [Completion].
    - The built-ins whose tables are not part of the program
      ([toLowerCase], [toUpperCase], [encodeURIComponent], [JSON.stringify],
      [JSON.parse]) are the fields of the class [Platform]; [RefPlatform]
      is a small executable instance.
    - [searchWord] is [async]; one call is embedded as one atomic step, the
      answer of the network being an argument. Overlapping lookups are not
      part of this development. *)

From Stdlib Require Import NArith ZArith String Ascii.
From stdpp Require Import base list gmap.

Set Warnings "-register-all,-clear-no-such-hyp".
Open Scope N_scope.

(** ** JavaScript strings *)

(** The code units of an ASCII literal. *)
Fixpoint js (s : string) : list N :=
  match s with
  | EmptyString => []
  | String a r => N_of_ascii a :: js r
  end.

(** ECMAScript [WhiteSpace] and [LineTerminator] code points: what
    [String.prototype.trim] strips. *)
Definition isWhiteSpace (c : N) : bool :=
  (c =? 9) || (c =? 10) || (c =? 11) || (c =? 12) || (c =? 13) || (c =? 32)
  || (c =? 160) || (c =? 5760)
  || ((8192 <=? c) && (c <=? 8202))
  || (c =? 8232) || (c =? 8233) || (c =? 8239) || (c =? 8287)
  || (c =? 12288) || (c =? 65279).

Fixpoint trimStart (s : list N) : list N :=
  match s with
  | [] => []
  | c :: r => if isWhiteSpace c then trimStart r else s
  end.

Definition trimEnd (s : list N) : list N :=
  reverse (trimStart (reverse s)).

(** [s.trim()] *)
Definition trim (s : list N) : list N := trimEnd (trimStart s).

(** Truthiness of a string: [if (s)]. *)
Definition truthy (s : list N) : bool :=
  match s with [] => false | _ :: _ => true end.

(** A word that is empty or made of white space only. *)
Definition blank (s : list N) : Prop := forallb isWhiteSpace s = true.

(** No white space at either end: a fixed point of [trim]. *)
Definition trimmed (s : list N) : Prop := trim s = s.

(** ** Values that cross the storage boundary *)

(** The values [JSON.parse] can produce. Numbers are kept to the integers;
    the program itself stores a boolean and two arrays of strings. *)
Inductive JSON : Type :=
  | JNull
  | JBool (b : bool)
  | JNum (z : Z)
  | JStr (s : list N)
  | JArr (l : list JSON)
  | JObj (l : list (list N * JSON)).

(** An array of strings as a JavaScript value. *)
Definition words_value (l : list (list N)) : JSON := JArr (JStr <$> l).

(** ** The built-ins the program calls *)

Class Platform : Type := {
  (** [s.toLowerCase()] *)
  toLowerCase : list N → list N;
  (** [s.toUpperCase()] *)
  toUpperCase : list N → list N;
  (** [encodeURIComponent(s)]; [None] when it throws [URIError] *)
  encodeURIComponent : list N → option (list N);
  (** [JSON.stringify(v)] *)
  JSON_stringify : JSON → list N;
  (** [JSON.parse(s)]; [None] when it throws [SyntaxError] *)
  JSON_parse : list N → option JSON
}.

(** What a lower-casing function is expected to satisfy; used only where
    a statement speaks of the result being a lower-cased, trimmed word. *)
Record LowerCaseLaws `{Platform} : Prop := {
  lower_nonempty : ∀ s, s ≠ [] → toLowerCase s ≠ [];
  lower_idempotent : ∀ s, toLowerCase (toLowerCase s) = toLowerCase s;
  lower_trimmed : ∀ s, trimmed s → trimmed (toLowerCase s)
}.

(** A value survives the trip through its JSON text. *)
Definition JSON_serializable `{Platform} (v : JSON) : Prop :=
  JSON_stringify v ≠ [] ∧ JSON_parse (JSON_stringify v) = Some v.

(** ** Configuration (lines 10-36) *)

Module API_CONFIG.
Definition BASE_URL : list N :=
  js "https://api.dictionaryapi.dev/api/v2/entries/en".
Definition TIMEOUT : N := 10000.
End API_CONFIG.

Module STORAGE_KEYS.
Definition SEARCH_HISTORY : list N := js "wordly_search_history".
Definition FAVORITES : list N := js "wordly_favorites".
Definition THEME : list N := js "wordly_theme".
End STORAGE_KEYS.

Module APP_CONSTANTS.
Definition MAX_HISTORY_ITEMS : nat := 50.
Definition MAX_FAVORITES_ITEMS : nat := 100.
Definition DEFAULT_WORD : list N := js "language".
End APP_CONSTANTS.

(** ** Utils (lines 43-81) *)

Module Utils.
Section WithPlatform.
Context `{Platform}.

(** [static capitalize(str)]:
    [str.charAt(0).toUpperCase() + str.slice(1)] *)
Definition capitalize (str : list N) : list N :=
  toUpperCase (take 1 str) ++ drop 1 str.

End WithPlatform.

(** [static debounce(func, wait)] (lines 50-60). The function it returns
    owns one timer, [timeout]: a call cancels it and arms a new one that
    is due [wait] milliseconds later and will call [func] with the
    arguments of that call. What happens to a debounced function is a
    sequence of calls and of turns of the event loop, each at its time;
    a turn runs the timer if it is due, never before. *)
Inductive DebounceEvent (A : Type) : Type :=
  | called (t : N) (args : A)    (* [executedFunction(...args)] at time [t] *)
  | timers_run (t : N).          (* the event loop runs the due timers *)
Arguments called {A} t args.
Arguments timers_run {A} t.

(** The armed timer (when it is due, what it will pass on) and the calls
    of [func] made so far, each with its time. *)
Definition Debounced (A : Type) : Type := option (N * A) * list (N * A).

Definition debounce_step {A} (wait : N) (st : Debounced A)
    (ev : DebounceEvent A) : Debounced A :=
  match ev with
  | called t args => (Some (t + wait, args), st.2)
  | timers_run t =>
      match st.1 with
      | Some (due, args) =>
          if due <=? t then (None, st.2 ++ [(t, args)]) else st
      | None => st
      end
  end.

(** The calls of [func] that a sequence of events causes. *)
Definition debounce {A} (wait : N) (evs : list (DebounceEvent A))
  : list (N * A) :=
  (foldl (debounce_step wait) (None, []) evs).2.

(** The arguments the debounced function was called with, in order. *)
Definition called_with {A} (evs : list (DebounceEvent A)) : list A :=
  omap (λ ev, match ev with called _ a => Some a | timers_run _ => None end)
       evs.

(** What holds of the armed timer and of the calls made so far, after
    any sequence of events. *)
Definition debounce_inv {A} (wait : N) (evs : list (DebounceEvent A))
    (st : Debounced A) : Prop :=
  (∀ due a, st.1 = Some (due, a) →
     ∃ l1 t0 l2, evs = l1 ++ called t0 a :: l2
                 ∧ called_with l2 = [] ∧ due = t0 + wait)
  ∧ (∀ t a, (t, a) ∈ st.2 →
       ∃ l1 t0 l2 l3,
         evs = l1 ++ called t0 a :: l2 ++ timers_run t :: l3
         ∧ called_with l2 = [] ∧ t0 + wait ≤ t)
  ∧ (st.2.*2 ++ from_option (λ p, [p.2]) [] st.1)
      `sublist_of` called_with evs.

End Utils.

(** ** The browser's [localStorage] *)

(** Keys and values are strings. A write that would take the store over
    its quota throws ([QuotaExceededError]); the size is counted in code
    units of keys and values. *)
Record Storage : Type := {
  items : gmap (list N) (list N);
  quota : N
}.

Definition usage (m : gmap (list N) (list N)) : N :=
  map_fold (λ k v acc, N.of_nat (length k) + N.of_nat (length v) + acc) 0 m.

(** [localStorage.getItem(key)]; [None] is [null]. *)
Definition getItem (key : list N) (st : Storage) : option (list N) :=
  items st !! key.

(** [localStorage.setItem(key, value)]; [None] when it throws. *)
Definition setItem (key value : list N) (st : Storage) : option Storage :=
  let m := <[key := value]> (items st) in
  if usage m <=? quota st
  then Some {| items := m; quota := quota st |}
  else None.

(** [localStorage.removeItem(key)] *)
Definition removeItem (key : list N) (st : Storage) : Storage :=
  {| items := delete key (items st); quota := quota st |}.

(** ** StorageManager (lines 86-148) *)

Module StorageManager.
Section WithPlatform.
Context `{Platform}.

(** [static save(key, value)]: the success flag and the store afterwards.
    The [catch] branch logs and returns [false]. *)
Definition save (key : list N) (value : JSON) (st : Storage)
  : bool * Storage :=
  match setItem key (JSON_stringify value) st with
  | Some st' => (true, st')
  | None => (false, st)
  end.

(** [static load(key, defaultValue)]:
    [value ? JSON.parse(value) : defaultValue], and [defaultValue] when
    the parse throws. *)
Definition load (key : list N) (defaultValue : JSON) (st : Storage)
  : JSON :=
  match getItem key st with
  | Some value =>
      if truthy value
      then match JSON_parse value with
           | Some v => v
           | None => defaultValue
           end
      else defaultValue
  | None => defaultValue
  end.

End WithPlatform.

(** [static remove(key)]. [removeItem] does not throw on a store that
    exists, so the flag is [true]. *)
Definition remove (key : list N) (st : Storage) : bool * Storage :=
  (true, removeItem key st).

(** [static isAvailable()]: a probe is written and removed again. *)
Definition isAvailable (st : Storage) : bool * Storage :=
  let test := js "__localStorage_test__" in
  match setItem test test st with
  | Some st' => (true, removeItem test st')
  | None => (false, st)
  end.

End StorageManager.

(** ** Errors and completions *)

(** A thrown value: the fields [name] and [message] of an [Error]. *)
Record JSError : Type := {
  name : list N;
  message : list N
}.

(** [new Error(msg)] *)
Definition Error (msg : list N) : JSError :=
  {| name := js "Error"; message := msg |}.

(** What [fetch] rejects with when the request cannot be made or completed. *)
Definition fetchFailure : JSError :=
  {| name := js "TypeError"; message := js "Failed to fetch" |}.

(** What [fetch] rejects with when its signal is aborted. *)
Definition abortError : JSError :=
  {| name := js "AbortError"; message := js "The user aborted a request." |}.

(** What [response.json()] rejects with on a malformed body. *)
Definition syntaxError : JSError :=
  {| name := js "SyntaxError"; message := js "Unexpected end of JSON input" |}.

(** What [encodeURIComponent] throws on a lone surrogate. *)
Definition uriError : JSError :=
  {| name := js "URIError"; message := js "URI malformed" |}.

(** What reading a property of [undefined] throws. *)
Definition undefinedAccess : JSError :=
  {| name := js "TypeError";
     message := js "Cannot read properties of undefined" |}.

Inductive Completion (A : Type) : Type :=
  | Return (a : A)
  | Throw (e : JSError).
Arguments Return {A} a.
Arguments Throw {A} e.

(** ** The dictionary service's data (spec section 3) *)

(** The optional fields are the ones the program reads with [?.] or tests
    before use. *)
Module Lexical.

Record Def : Type := {
  definition : list N;
  example : option (list N);
  d_synonyms : option (list (list N));
  d_antonyms : option (list (list N))
}.

Record Meaning : Type := {
  partOfSpeech : list N;
  definitions : list Def;
  m_synonyms : option (list (list N));
  m_antonyms : option (list (list N))
}.

Record Phonetic : Type := {
  text : option (list N);
  audio : option (list N)
}.

Record Entry : Type := {
  word : list N;
  phonetic : option (list N);
  phonetics : option (list Phonetic);
  meanings : list Meaning;
  sourceUrls : option (list (list N))
}.

End Lexical.
Export Lexical.

(** ** The network *)

(** An HTTP response: its status and what [response.json()] yields, [None]
    when the body is not JSON. A body that parses is the array of entries
    the service sends (spec section 6). *)
Record Response : Type := {
  status : N;
  json_body : option (list Entry)
}.

(** [response.ok] *)
Definition ok (r : Response) : bool :=
  (200 <=? status r) && (status r <=? 299).

Inductive Settlement : Type :=
  | Fulfilled (r : Response)
  | Rejected.

(** How the service answers one request: the time in milliseconds after
    which the promise of [fetch] settles ([None]: it never does), the way
    it settles when nothing aborts it first, and the time that the reading
    of the body ([response.json()]) takes once the response is there. *)
Record Exchange : Type := {
  settles_at : option N;
  settlement : Settlement;
  body_takes : N
}.

(** The network answers each URL. *)
Definition Network : Type := list N → Exchange.



(** The promise settles before a timer of [ms] milliseconds fires. At
    equality the timer, registered first, is taken to win. *)
Definition settles_before (x : Exchange) (ms : N) : bool :=
  match settles_at x with
  | Some t => t <? ms
  | None => false
  end.

(** What the outside world sees. *)
Inductive Event : Type :=
  | Lookup (w : list N)      (* [DictionaryAPI.fetchWord(w)] is called *)
  | Request (url : list N)   (* [fetch(url)] is issued *)
  | Abort (url : list N)     (* [controller.abort()] cancels it *)
  | Alert (msg : list N).    (* [alert(msg)] *)

(** An insertion-ordered [Set] of strings, as [Array.from] lists it. *)
Definition Set_add (x : list N) (s : list (list N)) : list (list N) :=
  if decide (x ∈ s) then s else s ++ [x].

(** [arr?.length] as a condition. *)
Definition has_length {A} (o : option (list A)) : bool :=
  match o with
  | Some (_ :: _) => true
  | _ => false
  end.

(** [arr.forEach(x => set.add(x))] under the guard [arr?.length]. *)
Definition add_all (o : option (list (list N))) (s : list (list N))
  : list (list N) :=
  if has_length o
  then foldl (λ acc x, Set_add x acc) s (default [] o)
  else s.

(** ** DictionaryAPI (lines 228-338) *)

Module DictionaryAPI.

(** The [catch] block of [fetchWord] (lines 257-269). *)
Definition catch (error : JSError) : Completion (option Entry) :=
  if decide (name error = js "AbortError")
  then Throw (Error (js "TIMEOUT"))
  else if decide (message error = js "WORD_NOT_FOUND")
  then Throw error
  else Throw (Error (js "NETWORK_ERROR")).

(** The [try] block after the response has arrived (lines 247-255).
    [data[0]] of an empty array is [undefined]: [None]. *)
Definition on_response (response : Response) : Completion (option Entry) :=
  if negb (ok response)
  then if status response =? 404
       then catch (Error (js "WORD_NOT_FOUND"))
       else catch (Error (js "API_ERROR"))
  else match json_body response with
       | None => catch syntaxError
       | Some data => Return (head data)
       end.

Section WithPlatform.
Context `{Platform}.

(** [static async fetchWord(word)]: the events it causes and how it
    completes. The timer is cleared as soon as [fetch] settles, so it
    bounds the wait for the response, not the reading of its body:
    [body_takes] has no part in the result. *)
Definition fetchWord (net : Network) (word : list N)
  : list Event * Completion (option Entry) :=
  match encodeURIComponent word with
  | None => ([], catch uriError)
  | Some w =>
      let url := API_CONFIG.BASE_URL ++ js "/" ++ w in
      let x := net url in
      if settles_before x API_CONFIG.TIMEOUT
      then match settlement x with
           | Fulfilled response => ([Request url], on_response response)
           | Rejected => ([Request url], catch fetchFailure)
           end
      else ([Request url; Abort url], catch abortError)
  end.

End WithPlatform.

(** [static collectSynonyms(meanings)] *)
Definition collectSynonyms (meanings : list Meaning) : list (list N) :=
  foldl (λ synonymsSet meaning,
           foldl (λ set def, add_all (d_synonyms def) set)
                 (add_all (m_synonyms meaning) synonymsSet)
                 (definitions meaning))
        [] meanings.

(** [static collectAntonyms(meanings)] *)
Definition collectAntonyms (meanings : list Meaning) : list (list N) :=
  foldl (λ antonymsSet meaning,
           foldl (λ set def, add_all (d_antonyms def) set)
                 (add_all (m_antonyms meaning) antonymsSet)
                 (definitions meaning))
        [] meanings.

(** [p.audio && p.audio.trim().length > 0] *)
Definition has_audio (p : Phonetic) : bool :=
  match audio p with
  | Some a => truthy a && (0 <? length (trim a))%nat
  | None => false
  end.

(** [arr.find(f)]; [None] is [undefined]. *)
Fixpoint Array_find {A} (f : A → bool) (l : list A) : option A :=
  match l with
  | [] => None
  | x :: r => if f x then Some x else Array_find f r
  end.

(** [static extractAudioUrl(phonetics)]; the argument is [None] when it is
    missing or not an array, the result when it is [null]. *)
Definition extractAudioUrl (phonetics : option (list Phonetic))
  : option (list N) :=
  match phonetics with
  | None => None
  | Some l =>
      match Array_find has_audio l with
      | Some phoneticWithAudio => audio phoneticWithAudio
      | None => None
      end
  end.

End DictionaryAPI.

(** ** The page *)

(** An item of a sidebar list. *)
Inductive Li : Type :=
  | li_empty (msg : list N)   (* class [sidebar-list-empty] *)
  | li_item (txt : list N).   (* class [sidebar-list-item] *)

Inductive Sidebar : Type := historySidebar | favoritesSidebar.

#[global] Instance Sidebar_eq_dec : EqDecision Sidebar.
Proof. solve_decision. Defined.

(** The elements of [DOMManager] that the state logic writes. A [.._hidden]
    flag is the presence of the class [hidden]. The markup of the meanings,
    the phonetics, the audio element and the source link are written by
    [renderWord] as well and are left out: nothing below reads them. *)
Record UI : Type := {
  wordInput : list N;
  loadingState_hidden : bool;
  errorContainer_hidden : bool;
  wordDisplay_hidden : bool;
  errorTitle : list N;
  errorMessage : list N;
  wordTitle : list N;
  favoriteBtn_active : bool;
  synonymsList : list (list N);
  synonymsContainer_hidden : bool;
  antonymsList : list (list N);
  antonymsContainer_hidden : bool;
  historyList : list Li;
  favoritesList : list Li
}.

(** [wordInput] is the text field of the search form; its markup is not
    part of app.js. A text field holds a single line: a string assigned to
    its [value] loses its line feeds (U+000A) and carriage returns
    (U+000D), by the value sanitization of HTML. *)
Definition strip_newlines (s : list N) : list N :=
  filter (λ c, c ≠ 10 ∧ c ≠ 13) s.

(** ** UIManager (lines 345-637) *)

Module UIManager.

(** The text field holds [v]. *)
Definition set_wordInput (v : list N) (u : UI) : UI :=
  {| wordInput := v;
     loadingState_hidden := loadingState_hidden u;
     errorContainer_hidden := errorContainer_hidden u;
     wordDisplay_hidden := wordDisplay_hidden u;
     errorTitle := errorTitle u; errorMessage := errorMessage u;
     wordTitle := wordTitle u; favoriteBtn_active := favoriteBtn_active u;
     synonymsList := synonymsList u;
     synonymsContainer_hidden := synonymsContainer_hidden u;
     antonymsList := antonymsList u;
     antonymsContainer_hidden := antonymsContainer_hidden u;
     historyList := historyList u; favoritesList := favoritesList u |}.

(** [this.dom.get('wordInput').value = v] *)
Definition assign_wordInput (v : list N) (u : UI) : UI :=
  set_wordInput (strip_newlines v) u.

(** [showLoading()] *)
Definition showLoading (u : UI) : UI :=
  {| wordInput := wordInput u;
     loadingState_hidden := false;
     errorContainer_hidden := true;
     wordDisplay_hidden := true;
     errorTitle := errorTitle u; errorMessage := errorMessage u;
     wordTitle := wordTitle u; favoriteBtn_active := favoriteBtn_active u;
     synonymsList := synonymsList u;
     synonymsContainer_hidden := synonymsContainer_hidden u;
     antonymsList := antonymsList u;
     antonymsContainer_hidden := antonymsContainer_hidden u;
     historyList := historyList u; favoritesList := favoritesList u |}.

(** [showError(title, message)], [hideLoading()] included. *)
Definition showError (title msg : list N) (u : UI) : UI :=
  {| wordInput := wordInput u;
     loadingState_hidden := true;
     errorContainer_hidden := false;
     wordDisplay_hidden := true;
     errorTitle := title; errorMessage := msg;
     wordTitle := wordTitle u; favoriteBtn_active := favoriteBtn_active u;
     synonymsList := synonymsList u;
     synonymsContainer_hidden := synonymsContainer_hidden u;
     antonymsList := antonymsList u;
     antonymsContainer_hidden := antonymsContainer_hidden u;
     historyList := historyList u; favoritesList := favoritesList u |}.

(** [updateFavoriteButton(isFavorite)] *)
Definition updateFavoriteButton (isFavorite : bool) (u : UI) : UI :=
  {| wordInput := wordInput u;
     loadingState_hidden := loadingState_hidden u;
     errorContainer_hidden := errorContainer_hidden u;
     wordDisplay_hidden := wordDisplay_hidden u;
     errorTitle := errorTitle u; errorMessage := errorMessage u;
     wordTitle := wordTitle u; favoriteBtn_active := isFavorite;
     synonymsList := synonymsList u;
     synonymsContainer_hidden := synonymsContainer_hidden u;
     antonymsList := antonymsList u;
     antonymsContainer_hidden := antonymsContainer_hidden u;
     historyList := historyList u; favoritesList := favoritesList u |}.

Section WithPlatform.
Context `{Platform}.

(** [renderWord(wordData, isFavorite)]: the title, the favorite button,
    the related words ([renderRelatedWords]: a list is rewritten only
    when it is not empty), then the word display is shown and the loading
    state and the error are hidden. *)
Definition renderWord (wordData : Entry) (isFavorite : bool) (u : UI) : UI :=
  let synonyms := DictionaryAPI.collectSynonyms (meanings wordData) in
  let antonyms := DictionaryAPI.collectAntonyms (meanings wordData) in
  {| wordInput := wordInput u;
     loadingState_hidden := true;
     errorContainer_hidden := true;
     wordDisplay_hidden := false;
     errorTitle := errorTitle u; errorMessage := errorMessage u;
     wordTitle := Utils.capitalize (word wordData);
     favoriteBtn_active := isFavorite;
     synonymsList :=
       if decide (0 < length synonyms)%nat then synonyms else synonymsList u;
     synonymsContainer_hidden :=
       if decide (0 < length synonyms)%nat then false else true;
     antonymsList :=
       if decide (0 < length antonyms)%nat then antonyms else antonymsList u;
     antonymsContainer_hidden :=
       if decide (0 < length antonyms)%nat then false else true;
     historyList := historyList u; favoritesList := favoritesList u |}.

(** [renderSidebarList(listElement, items, emptyMessage)]: the new
    children of the list element. *)
Definition renderSidebarList (items : list (list N)) (emptyMessage : list N)
  : list Li :=
  if decide (length items = 0%nat)
  then [li_empty emptyMessage]
  else (λ item, li_item (Utils.capitalize item)) <$> items.

End WithPlatform.

Definition set_historyList (l : list Li) (u : UI) : UI :=
  {| wordInput := wordInput u;
     loadingState_hidden := loadingState_hidden u;
     errorContainer_hidden := errorContainer_hidden u;
     wordDisplay_hidden := wordDisplay_hidden u;
     errorTitle := errorTitle u; errorMessage := errorMessage u;
     wordTitle := wordTitle u; favoriteBtn_active := favoriteBtn_active u;
     synonymsList := synonymsList u;
     synonymsContainer_hidden := synonymsContainer_hidden u;
     antonymsList := antonymsList u;
     antonymsContainer_hidden := antonymsContainer_hidden u;
     historyList := l; favoritesList := favoritesList u |}.

Definition set_favoritesList (l : list Li) (u : UI) : UI :=
  {| wordInput := wordInput u;
     loadingState_hidden := loadingState_hidden u;
     errorContainer_hidden := errorContainer_hidden u;
     wordDisplay_hidden := wordDisplay_hidden u;
     errorTitle := errorTitle u; errorMessage := errorMessage u;
     wordTitle := wordTitle u; favoriteBtn_active := favoriteBtn_active u;
     synonymsList := synonymsList u;
     synonymsContainer_hidden := synonymsContainer_hidden u;
     antonymsList := antonymsList u;
     antonymsContainer_hidden := antonymsContainer_hidden u;
     historyList := historyList u; favoritesList := l |}.

(** The elements of the word header that [renderWord] writes through
    [renderPhonetics] and [setupAudio]; the state logic never reads them. *)
Record WordHeader : Type := {
  phoneticText : list N;
  wordAudio_src : list N;
  audioBtn_hidden : bool
}.

(** [renderPhonetics(wordData)] *)
Definition renderPhonetics (wordData : Entry) (h : WordHeader) : WordHeader :=
  let first_text :=
    match phonetics wordData with
    | Some (p :: _) =>
        match text p with
        | Some t => if truthy t then Some t else None
        | None => None
        end
    | _ => None
    end in
  {| phoneticText :=
       match phonetic wordData with
       | Some p => if truthy p then p else default [] first_text
       | None => default [] first_text
       end;
     wordAudio_src := wordAudio_src h;
     audioBtn_hidden := audioBtn_hidden h |}.

(** [setupAudio(phonetics)] *)
Definition setupAudio (phonetics : list Phonetic) (h : WordHeader)
  : WordHeader :=
  match DictionaryAPI.extractAudioUrl (Some phonetics) with
  | Some audioUrl =>
      if truthy audioUrl
      then {| phoneticText := phoneticText h; wordAudio_src := audioUrl;
              audioBtn_hidden := false |}
      else {| phoneticText := phoneticText h;
              wordAudio_src := wordAudio_src h; audioBtn_hidden := true |}
  | None =>
      {| phoneticText := phoneticText h; wordAudio_src := wordAudio_src h;
         audioBtn_hidden := true |}
  end.

(** Lines 399 and 402 of [renderWord]:
    [this.renderPhonetics(wordData); this.setupAudio(wordData.phonetics || [])]. *)
Definition renderHeader (wordData : Entry) (h : WordHeader) : WordHeader :=
  setupAudio (default [] (phonetics wordData)) (renderPhonetics wordData h).

End UIManager.

(** ** ThemeManager (lines 644-681) *)

(** JavaScript truthiness of a value read from storage. *)
Definition js_truthy (v : JSON) : bool :=
  match v with
  | JNull => false
  | JBool b => b
  | JNum z => negb (z =? 0)%Z
  | JStr s => truthy s
  | JArr _ | JObj _ => true
  end.

Module ThemeManager.

(** [this.isDark], the [data-theme] attribute of the document element
    ([None]: absent) and the text of the theme icon. *)
Record Theme : Type := {
  isDark : JSON;
  data_theme : option (list N);
  theme_icon : list N
}.

(** The sun (U+2600 U+FE0F) and the moon (U+1F319). *)
Definition sun : list N := [9728; 65039].
Definition moon : list N := [55356; 57113].

(** [apply()] *)
Definition apply (t : Theme) : Theme :=
  if js_truthy (isDark t)
  then {| isDark := isDark t; data_theme := Some (js "dark");
          theme_icon := sun |}
  else {| isDark := isDark t; data_theme := None; theme_icon := moon |}.

Section WithPlatform.
Context `{Platform}.

(** [initialize()] *)
Definition initialize (st : Storage) (t : Theme) : Theme :=
  apply {| isDark := StorageManager.load STORAGE_KEYS.THEME (JBool false) st;
           data_theme := data_theme t; theme_icon := theme_icon t |}.

(** [toggle()]: the theme and the store afterwards. *)
Definition toggle (t : Theme) (st : Storage) : Theme * Storage :=
  let t1 := apply {| isDark := JBool (negb (js_truthy (isDark t)));
                     data_theme := data_theme t;
                     theme_icon := theme_icon t |} in
  (t1, (StorageManager.save STORAGE_KEYS.THEME (isDark t1) st).2).

End WithPlatform.
End ThemeManager.

(** ** SidebarManager (lines 688-756) *)

Module SidebarManager.

(** The classes [active] and [hidden] of the two sidebars, the overlay,
    [document.body.style.overflow], [this.activeSidebar] and the number of
    hide-after-animation timers that [closeAll] has set and that have not
    run yet. *)
Record Sidebars : Type := {
  history_active : bool;
  history_hidden : bool;
  favorites_active : bool;
  favorites_hidden : bool;
  sidebarOverlay_hidden : bool;
  body_overflow : list N;
  activeSidebar : option Sidebar;
  timers : nat
}.

(** [closeAll()] *)
Definition closeAll (s : Sidebars) : Sidebars :=
  {| history_active := false; history_hidden := history_hidden s;
     favorites_active := false; favorites_hidden := favorites_hidden s;
     sidebarOverlay_hidden := true; body_overflow := [];
     activeSidebar := None; timers := S (timers s) |}.

(** [show(sidebar)] *)
Definition show (sidebar : Sidebar) (s : Sidebars) : Sidebars :=
  let s1 := closeAll s in
  match sidebar with
  | historySidebar =>
      {| history_active := true; history_hidden := false;
         favorites_active := favorites_active s1;
         favorites_hidden := favorites_hidden s1;
         sidebarOverlay_hidden := false; body_overflow := js "hidden";
         activeSidebar := Some historySidebar; timers := timers s1 |}
  | favoritesSidebar =>
      {| history_active := history_active s1;
         history_hidden := history_hidden s1;
         favorites_active := true; favorites_hidden := false;
         sidebarOverlay_hidden := false; body_overflow := js "hidden";
         activeSidebar := Some favoritesSidebar; timers := timers s1 |}
  end.

(** [showHistory()] and [showFavorites()] *)
Definition showHistory (s : Sidebars) : Sidebars := show historySidebar s.
Definition showFavorites (s : Sidebars) : Sidebars := show favoritesSidebar s.

(** The callback that [closeAll] hands to [setTimeout] (lines 738-744),
    when one of the pending timers runs. *)
Definition hideAfterAnimation (s : Sidebars) : Sidebars :=
  match timers s with
  | O => s
  | S n =>
      {| history_active := history_active s;
         history_hidden := if history_active s then history_hidden s else true;
         favorites_active := favorites_active s;
         favorites_hidden :=
           if favorites_active s then favorites_hidden s else true;
         sidebarOverlay_hidden := sidebarOverlay_hidden s;
         body_overflow := body_overflow s;
         activeSidebar := activeSidebar s; timers := n |}
  end.

(** [isOpen()] *)
Definition isOpen (s : Sidebars) : bool :=
  match activeSidebar s with Some _ => true | None => false end.

(** What can happen to the sidebars: the buttons, the close buttons, the
    overlay and the Escape key (all [closeAll]), and a timer running. *)
Inductive SidebarEvent : Type :=
  | ev_showHistory | ev_showFavorites | ev_closeAll | ev_timer.

Definition step (s : Sidebars) (ev : SidebarEvent) : Sidebars :=
  match ev with
  | ev_showHistory => showHistory s
  | ev_showFavorites => showFavorites s
  | ev_closeAll => closeAll s
  | ev_timer => hideAfterAnimation s
  end.

(** The page as it is loaded: both sidebars hidden, nothing pending. *)
Definition loaded : Sidebars :=
  {| history_active := false; history_hidden := true;
     favorites_active := false; favorites_hidden := true;
     sidebarOverlay_hidden := true; body_overflow := [];
     activeSidebar := None; timers := 0 |}.

(** A sidebar is on screen: it does not carry the class [hidden]. *)
Definition hidden (sb : Sidebar) (s : Sidebars) : bool :=
  match sb with
  | historySidebar => history_hidden s
  | favoritesSidebar => favorites_hidden s
  end.

Definition active (sb : Sidebar) (s : Sidebars) : bool :=
  match sb with
  | historySidebar => history_active s
  | favoritesSidebar => favorites_active s
  end.

(** What [SidebarManager] keeps true of the page: the sidebar with the
    class [active] is the one in [activeSidebar], it is not hidden, the
    overlay is shown exactly while a sidebar is open, and once no timer is
    pending every other sidebar is hidden. *)
Definition consistent (s : Sidebars) : Prop :=
  (∀ sb, active sb s = true ↔
         activeSidebar s = Some sb)
  ∧ (∀ sb, active sb s = true →
           hidden sb s = false)
  ∧ (sidebarOverlay_hidden s
     = negb (isOpen s))
  ∧ (timers s = 0%nat →
     ∀ sb, active sb s = false →
           hidden sb s = true).

End SidebarManager.

(** ** WordlyApp (lines 763-1129) *)

(** [state.currentWord]: [null] at start, then whatever [fetchWord]
    returned last. *)
Inductive CurrentWord : Type :=
  | cw_null
  | cw_undefined
  | cw_entry (wordData : Entry).

(** [this.state] *)
Record State : Type := {
  currentWord : CurrentWord;
  searchHistory : list (list N);
  favorites : list (list N)
}.

(** The application with the browser around it. *)
Record World : Type := {
  state : State;
  ui : UI;
  activeSidebar : option Sidebar;   (* [this.sidebar.activeSidebar] *)
  localStorage : Storage;
  trace : list Event
}.

Definition set_state (s : State) (w : World) : World :=
  {| state := s; ui := ui w; activeSidebar := activeSidebar w;
     localStorage := localStorage w; trace := trace w |}.

Definition set_ui (u : UI) (w : World) : World :=
  {| state := state w; ui := u; activeSidebar := activeSidebar w;
     localStorage := localStorage w; trace := trace w |}.

Definition set_activeSidebar (a : option Sidebar) (w : World) : World :=
  {| state := state w; ui := ui w; activeSidebar := a;
     localStorage := localStorage w; trace := trace w |}.

Definition set_localStorage (st : Storage) (w : World) : World :=
  {| state := state w; ui := ui w; activeSidebar := activeSidebar w;
     localStorage := st; trace := trace w |}.

(** Events are appended in the order they happen. *)
Definition emit (evs : list Event) (w : World) : World :=
  {| state := state w; ui := ui w; activeSidebar := activeSidebar w;
     localStorage := localStorage w; trace := trace w ++ evs |}.

Definition set_currentWord (c : CurrentWord) (s : State) : State :=
  {| currentWord := c; searchHistory := searchHistory s;
     favorites := favorites s |}.

Definition set_searchHistory (l : list (list N)) (s : State) : State :=
  {| currentWord := currentWord s; searchHistory := l;
     favorites := favorites s |}.

Definition set_favorites (l : list (list N)) (s : State) : State :=
  {| currentWord := currentWord s; searchHistory := searchHistory s;
     favorites := l |}.

(** [arr.indexOf(x)]: the first index, [None] for [-1]. *)
Fixpoint indexOf (x : list N) (l : list (list N)) : option nat :=
  match l with
  | [] => None
  | y :: r => if decide (y = x) then Some 0%nat else S <$> indexOf x r
  end.

(** [arr.includes(x)] *)
Definition includes (x : list N) (l : list (list N)) : bool :=
  bool_decide (x ∈ l).

Module WordlyApp.

(** The texts of [handleSearchError] and of the guards. *)
Definition notFoundMessage (word : list N) : list N :=
  js "Sorry, we couldn't find " ++ [34] ++ word ++ [34]
  ++ js " in our dictionary. Please check your spelling and try again.".

Definition capacityMessage : list N :=
  js "You can only save up to 100 favorites.".

(** [handleSearchError(error, word)]: the [switch] on [error.message]. *)
Definition handleSearchError (error : JSError) (word : list N) (w : World)
  : World :=
  if decide (message error = js "WORD_NOT_FOUND")
  then set_ui (UIManager.showError (js "Word Not Found")
                 (notFoundMessage word) (ui w)) w
  else if decide (message error = js "TIMEOUT")
  then set_ui (UIManager.showError (js "Request Timeout")
                 (js "The request took too long. Please check your internet connection and try again.")
                 (ui w)) w
  else if decide (message error = js "NETWORK_ERROR")
  then set_ui (UIManager.showError (js "Network Error")
                 (js "Unable to connect to the dictionary service. Please check your internet connection and try again.")
                 (ui w)) w
  else set_ui (UIManager.showError (js "Unexpected Error")
                 (js "An unexpected error occurred. Please try again later.")
                 (ui w)) w.

Section WithPlatform.
Context `{Platform}.

(** [addToHistory(word)] *)
Definition addToHistory (word : list N) (w : World) : World :=
  (* Remove if already exists *)
  let h1 := filter (λ x, x ≠ word) (searchHistory (state w)) in
  (* Add to beginning *)
  let h2 := word :: h1 in
  (* Limit size *)
  let h3 :=
    if decide (APP_CONSTANTS.MAX_HISTORY_ITEMS < length h2)%nat
    then take APP_CONSTANTS.MAX_HISTORY_ITEMS h2
    else h2 in
  (* Save to storage *)
  let st := snd (StorageManager.save STORAGE_KEYS.SEARCH_HISTORY
                   (words_value h3) (localStorage w)) in
  set_localStorage st (set_state (set_searchHistory h3 (state w)) w).

(** [showHistory()] *)
Definition showHistory (w : World) : World :=
  let l := UIManager.renderSidebarList (searchHistory (state w))
             (js "No search history yet. Start exploring words!") in
  set_activeSidebar (Some historySidebar)
    (set_ui (UIManager.set_historyList l (ui w)) w).

(** [showFavorites()] *)
Definition showFavorites (w : World) : World :=
  let l := UIManager.renderSidebarList (favorites (state w))
             (js "No favorite words yet. Click the star to save words!") in
  set_activeSidebar (Some favoritesSidebar)
    (set_ui (UIManager.set_favoritesList l (ui w)) w).

(** [clearHistory()]; [confirmed] is the answer to [confirm]. *)
Definition clearHistory (confirmed : bool) (w : World) : World :=
  if confirmed
  then
    let st := snd (StorageManager.save STORAGE_KEYS.SEARCH_HISTORY
                     (words_value []) (localStorage w)) in
    showHistory
      (set_localStorage st (set_state (set_searchHistory [] (state w)) w))
  else w.

(** What [toggleFavorite] does once the list has been changed:
    lines 1089-1099. *)
Definition favoritesChanged (word : list N) (favs : list (list N))
  (w : World) : World :=
  let st := snd (StorageManager.save STORAGE_KEYS.FAVORITES
                   (words_value favs) (localStorage w)) in
  let w1 := set_localStorage st
              (set_state (set_favorites favs (state w)) w) in
  let isFavorite := includes word favs in
  let w2 := set_ui (UIManager.updateFavoriteButton isFavorite (ui w1)) w1 in
  if decide (activeSidebar w2 = Some favoritesSidebar)
  then showFavorites w2
  else w2.

(** [toggleFavorite()]: the word is the one of [state.currentWord]. *)
Definition toggleFavorite (w : World) : World :=
  match currentWord (state w) with
  | cw_entry wordData =>
      let word := word wordData in
      match indexOf word (favorites (state w)) with
      | Some index =>
          (* Remove from favorites: [splice(index, 1)] *)
          favoritesChanged word (delete index (favorites (state w))) w
      | None =>
          (* Add to favorites *)
          if decide (APP_CONSTANTS.MAX_FAVORITES_ITEMS
                     ≤ length (favorites (state w)))%nat
          then emit [Alert capacityMessage] w
          else favoritesChanged word (favorites (state w) ++ [word]) w
      end
  | _ => w
  end.

(** [clearFavorites()]; [confirmed] is the answer to [confirm]. *)
Definition clearFavorites (confirmed : bool) (w : World) : World :=
  if confirmed
  then
    let st := snd (StorageManager.save STORAGE_KEYS.FAVORITES
                     (words_value []) (localStorage w)) in
    let w1 := showFavorites
                (set_localStorage st
                   (set_state (set_favorites [] (state w)) w)) in
    match currentWord (state w1) with
    | cw_entry _ => set_ui (UIManager.updateFavoriteButton false (ui w1)) w1
    | _ => w1
    end
  else w.

(** [async searchWord(word)], with the network's answers as [net]. *)
Definition searchWord (net : Network) (word : list N) (w : World) : World :=
  if negb (truthy word) || bool_decide (trim word = [])
  then set_ui (UIManager.showError (js "Invalid Input")
                 (js "Please enter a word to look up.") (ui w)) w
  else
    let cleanWord := toLowerCase (trim word) in
    (* Update input field, show loading *)
    let w1 := set_ui (UIManager.showLoading
                        (UIManager.assign_wordInput cleanWord (ui w))) w in
    (* Fetch word data *)
    let r := DictionaryAPI.fetchWord net cleanWord in
    let w2 := emit (Lookup cleanWord :: fst r) w1 in
    match snd r with
    | Return (Some wordData) =>
        (* Update state, add to history, render word *)
        let w3 := set_state (set_currentWord (cw_entry wordData) (state w2))
                    w2 in
        let w4 := addToHistory (Lexical.word wordData) w3 in
        let isFavorite :=
          includes (Lexical.word wordData) (favorites (state w4)) in
        set_ui (UIManager.renderWord wordData isFavorite (ui w4)) w4
    | Return None =>
        (* [wordData.word] throws after [currentWord] was assigned *)
        let w3 := set_state (set_currentWord cw_undefined (state w2)) w2 in
        handleSearchError undefinedAccess cleanWord w3
    | Throw error => handleSearchError error cleanWord w2
    end.

(** The [submit] listener of the search form (lines 834-840), fired with
    the text that is in the input field. *)
Definition onSearchFormSubmit (net : Network) (w : World) : World :=
  let word := trim (wordInput (ui w)) in
  if truthy word then searchWord net word w else w.

(** The search field holds [text], typed by the user, and the form is
    submitted. *)
Definition submit (net : Network) (text : list N) (w : World) : World :=
  onSearchFormSubmit net (set_ui (UIManager.set_wordInput text (ui w)) w).

(** [this.randomWords] (lines 778-784) *)
Definition randomWords : list (list N) :=
  js <$> ["eloquent"; "resilient"; "serendipity"; "ephemeral"; "magnificent";
          "luminous"; "harmony"; "tranquil"; "vibrant"; "sublime";
          "cascade"; "pristine"; "euphoria"; "zenith"; "flourish";
          "enigma"; "persevere"; "radiant"; "whimsical"; "benevolent";
          "vocabulary"; "pronunciation"; "grammar"; "fluency";
          "articulate"]%string.

(** [searchRandomWord()]; [randomIndex] is the value of
    [Math.floor(Math.random() * this.randomWords.length)]. An index
    outside the array reads [undefined], which [searchWord] treats like
    the empty string. *)
Definition searchRandomWord (net : Network) (randomIndex : nat) (w : World)
  : World :=
  match randomWords !! randomIndex with
  | Some word => searchWord net word w
  | None => searchWord net [] w
  end.

(** [this.sidebar.closeAll()], as far as [World] records the sidebars. *)
Definition sidebar_closeAll (w : World) : World := set_activeSidebar None w.

(** The [click] listeners of the two sidebar lists (lines 898-913);
    [target] is the item that was clicked, [None] for a click on the list
    itself. The text of an item is what [renderSidebarList] wrote. *)
Definition onListClick (net : Network) (target : option Li) (w : World)
  : World :=
  match target with
  | Some (li_item textContent) =>
      sidebar_closeAll (searchWord net (toLowerCase textContent) w)
  | _ => w
  end.

Definition onHistoryListClick (net : Network) (index : nat) (w : World)
  : World :=
  onListClick net (historyList (ui w) !! index) w.

Definition onFavoritesListClick (net : Network) (index : nat) (w : World)
  : World :=
  onListClick net (favoritesList (ui w) !! index) w.

(** The strings of a stored array of strings; [None] for any other value. *)
Definition as_words (v : JSON) : option (list (list N)) :=
  match v with
  | JArr l => mapM (λ x, match x with JStr s => Some s | _ => None end) l
  | _ => None
  end.

(** [loadSavedData()]. The two lists are whatever [load] returns; the
    result is [None] when one of them is not an array of strings, a value
    that [State] has no place for. *)
Definition loadSavedData (w : World) : option World :=
  h ← as_words (StorageManager.load STORAGE_KEYS.SEARCH_HISTORY
                  (words_value []) (localStorage w));
  f ← as_words (StorageManager.load STORAGE_KEYS.FAVORITES
                  (words_value []) (localStorage w));
  Some (set_state (set_favorites f (set_searchHistory h (state w))) w).

(** What the user can do, one listener each (lines 832-914). *)
Inductive Action : Type :=
  | do_submit (net : Network) (text : list N)
  | do_wordTag (net : Network) (word : list N)
  | do_randomWord (net : Network) (randomIndex : nat)
  | do_history
  | do_favorites
  | do_favorite
  | do_close
  | do_clearHistory (confirmed : bool)
  | do_clearFavorites (confirmed : bool)
  | do_historyItem (net : Network) (index : nat)
  | do_favoritesItem (net : Network) (index : nat).

Definition perform (w : World) (a : Action) : World :=
  match a with
  | do_submit net text => submit net text w
  | do_wordTag net word => searchWord net word w
  | do_randomWord net i => searchRandomWord net i w
  | do_history => showHistory w
  | do_favorites => showFavorites w
  | do_favorite => toggleFavorite w
  | do_close => sidebar_closeAll w
  | do_clearHistory confirmed => clearHistory confirmed w
  | do_clearFavorites confirmed => clearFavorites confirmed w
  | do_historyItem net i => onHistoryListClick net i w
  | do_favoritesItem net i => onFavoritesListClick net i w
  end.

End WithPlatform.
End WordlyApp.

(** ** A reference platform *)

(** An executable instance of [Platform], enough to run the program on
    examples: case mapping on the ASCII letters, UTF-8 percent-encoding, and
    a JSON printer and parser for the values of [JSON]. *)
Module RefPlatform.

Definition lower (c : N) : N :=
  if (65 <=? c) && (c <=? 90) then c + 32 else c.

Definition upper (c : N) : N :=
  if (97 <=? c) && (c <=? 122) then c - 32 else c.

Definition hex (n : N) : N := if n <? 10 then 48 + n else 55 + n.

Definition percent (byte : N) : list N := [37; hex (byte / 16); hex (byte mod 16)].

(** The characters [encodeURIComponent] leaves alone. *)
Definition unreserved (c : N) : bool :=
  ((65 <=? c) && (c <=? 90)) || ((97 <=? c) && (c <=? 122))
  || ((48 <=? c) && (c <=? 57))
  || (c =? 45) || (c =? 95) || (c =? 46) || (c =? 33) || (c =? 126)
  || (c =? 42) || (c =? 39) || (c =? 40) || (c =? 41).

Definition utf8 (cp : N) : list N :=
  if cp <? 128 then [cp]
  else if cp <? 2048 then [192 + cp / 64; 128 + cp mod 64]
  else if cp <? 65536
  then [224 + cp / 4096; 128 + (cp / 64) mod 64; 128 + cp mod 64]
  else [240 + cp / 262144; 128 + (cp / 4096) mod 64;
        128 + (cp / 64) mod 64; 128 + cp mod 64].

Definition high_surrogate (c : N) : bool := (55296 <=? c) && (c <=? 56319).
Definition low_surrogate (c : N) : bool := (56320 <=? c) && (c <=? 57343).

Fixpoint encode (s : list N) : option (list N) :=
  match s with
  | [] => Some []
  | c :: r =>
      if unreserved c then (c ::.) <$> encode r
      else if high_surrogate c
      then match r with
           | d :: r' =>
               if low_surrogate d
               then
                 let cp := 65536 + (c - 55296) * 1024 + (d - 56320) in
                 (λ e, (utf8 cp ≫= percent) ++ e) <$> encode r'
               else None
           | [] => None
           end
      else if low_surrogate c then None
      else (λ e, (utf8 c ≫= percent) ++ e) <$> encode r
  end.

(** *** Printing JSON *)

Definition hex_lower (n : N) : N := if n <? 10 then 48 + n else 87 + n.

Definition escape (c : N) : list N :=
  if c =? 34 then [92; 34]
  else if c =? 92 then [92; 92]
  else if c =? 8 then [92; 98]
  else if c =? 12 then [92; 102]
  else if c =? 10 then [92; 110]
  else if c =? 13 then [92; 114]
  else if c =? 9 then [92; 116]
  else if c <? 32 then [92; 117; 48; 48; hex_lower (c / 16); hex_lower (c mod 16)]
  else [c].

Definition quote (s : list N) : list N := 34 :: (s ≫= escape) ++ [34].

Fixpoint digits_aux (fuel : nat) (n : N) (acc : list N) : list N :=
  match fuel with
  | O => acc
  | S f =>
      let acc' := (48 + n mod 10) :: acc in
      if n <? 10 then acc' else digits_aux f (n / 10) acc'
  end.

Definition digits (n : N) : list N :=
  digits_aux (S (N.to_nat (N.log2 n))) n [].

Fixpoint stringify (v : JSON) : list N :=
  match v with
  | JNull => js "null"
  | JBool true => js "true"
  | JBool false => js "false"
  | JNum z => (if (z <? 0)%Z then [45] else []) ++ digits (Z.abs_N z)
  | JStr s => quote s
  | JArr l =>
      91 :: (fix elems (l : list JSON) : list N :=
               match l with
               | [] => []
               | x :: r =>
                   match r with
                   | [] => stringify x
                   | _ :: _ => stringify x ++ 44 :: elems r
                   end
               end) l ++ [93]
  | JObj l =>
      123 :: (fix members (l : list (list N * JSON)) : list N :=
                match l with
                | [] => []
                | (k, x) :: r =>
                    match r with
                    | [] => quote k ++ 58 :: stringify x
                    | _ :: _ => quote k ++ 58 :: stringify x ++ 44 :: members r
                    end
                end) l ++ [125]
  end.

(** The text between the brackets of an array. *)
Fixpoint elems (l : list JSON) : list N :=
  match l with
  | [] => []
  | x :: r =>
      match r with
      | [] => stringify x
      | _ :: _ => stringify x ++ 44 :: elems r
      end
  end.

(** *** Parsing JSON *)

Definition json_ws (c : N) : bool :=
  (c =? 32) || (c =? 9) || (c =? 10) || (c =? 13).

Fixpoint skip_ws (s : list N) : list N :=
  match s with
  | c :: r => if json_ws c then skip_ws r else s
  | [] => []
  end.

Definition unhex (c : N) : option N :=
  if (48 <=? c) && (c <=? 57) then Some (c - 48)
  else if (97 <=? c) && (c <=? 102) then Some (c - 87)
  else if (65 <=? c) && (c <=? 70) then Some (c - 55)
  else None.

(** The characters of a string literal after its opening quote. *)
Fixpoint parse_chars (s : list N) : option (list N * list N) :=
  match s with
  | [] => None
  | 34 :: r => Some ([], r)
  | 92 :: e :: r =>
      let simple (c : N) := (λ p : list N * list N, (c :: p.1, p.2)) <$> parse_chars r in
      if e =? 34 then simple 34
      else if e =? 92 then simple 92
      else if e =? 47 then simple 47
      else if e =? 98 then simple 8
      else if e =? 102 then simple 12
      else if e =? 110 then simple 10
      else if e =? 114 then simple 13
      else if e =? 116 then simple 9
      else if e =? 117
      then match r with
           | a :: b :: c :: d :: r' =>
               match unhex a, unhex b, unhex c, unhex d, parse_chars r' with
               | Some a, Some b, Some c, Some d, Some (cs, rest) =>
                   Some (a * 4096 + b * 256 + c * 16 + d :: cs, rest)
               | _, _, _, _, _ => None
               end
           | _ => None
           end
      else None
  | c :: r =>
      if (c <? 32) || (c =? 92) then None
      else (λ p : list N * list N, (c :: p.1, p.2)) <$> parse_chars r
  end.

Definition is_digit (c : N) : bool := (48 <=? c) && (c <=? 57).

Fixpoint parse_digits (s : list N) (acc : N) : N * list N :=
  match s with
  | c :: r => if is_digit c then parse_digits r (10 * acc + (c - 48)) else (acc, s)
  | [] => (acc, [])
  end.

(** An integer literal; a fraction or an exponent is refused. *)
Definition parse_nat (s : list N) : option (N * list N) :=
  match s with
  | c :: r =>
      if is_digit c
      then
        let p := if c =? 48 then (0, r) else parse_digits s 0 in
        match p.2 with
        | d :: _ =>
            if is_digit d || (d =? 46) || (d =? 101) || (d =? 69)
            then None else Some p
        | [] => Some p
        end
      else None
  | [] => None
  end.

Fixpoint parse_value (fuel : nat) (s : list N) : option (JSON * list N) :=
  match fuel with
  | O => None
  | S f =>
      match skip_ws s with
      | 110 :: 117 :: 108 :: 108 :: r => Some (JNull, r)
      | 116 :: 114 :: 117 :: 101 :: r => Some (JBool true, r)
      | 102 :: 97 :: 108 :: 115 :: 101 :: r => Some (JBool false, r)
      | 34 :: r => (λ p : list N * list N, (JStr p.1, p.2)) <$> parse_chars r
      | 45 :: r =>
          (λ p : N * list N, (JNum (- Z.of_N p.1), p.2)) <$> parse_nat r
      | 91 :: r =>
          match skip_ws r with
          | 93 :: r' => Some (JArr [], r')
          | _ => (λ p : list JSON * list N, (JArr p.1, p.2)) <$> parse_elems f r
          end
      | 123 :: r =>
          match skip_ws r with
          | 125 :: r' => Some (JObj [], r')
          | _ => (λ p : list (list N * JSON) * list N, (JObj p.1, p.2))
                   <$> parse_members f r
          end
      | r => (λ p : N * list N, (JNum (Z.of_N p.1), p.2)) <$> parse_nat r
      end
  end
with parse_elems (fuel : nat) (s : list N) : option (list JSON * list N) :=
  match fuel with
  | O => None
  | S f =>
      match parse_value f s with
      | Some (v, r) =>
          match skip_ws r with
          | 44 :: r' =>
              (λ p : list JSON * list N, (v :: p.1, p.2)) <$> parse_elems f r'
          | 93 :: r' => Some ([v], r')
          | _ => None
          end
      | None => None
      end
  end
with parse_members (fuel : nat) (s : list N)
  : option (list (list N * JSON) * list N) :=
  match fuel with
  | O => None
  | S f =>
      match skip_ws s with
      | 34 :: r =>
          match parse_chars r with
          | Some (k, r1) =>
              match skip_ws r1 with
              | 58 :: r2 =>
                  match parse_value f r2 with
                  | Some (v, r3) =>
                      match skip_ws r3 with
                      | 44 :: r4 =>
                          (λ p : list (list N * JSON) * list N,
                             ((k, v) :: p.1, p.2)) <$> parse_members f r4
                      | 125 :: r4 => Some ([(k, v)], r4)
                      | _ => None
                      end
                  | None => None
                  end
              | _ => None
              end
          | None => None
          end
      | _ => None
      end
  end.

Definition parse (s : list N) : option JSON :=
  match parse_value (2 * length s + 2) s with
  | Some (v, r) => match skip_ws r with [] => Some v | _ :: _ => None end
  | None => None
  end.

#[export] Instance ref : Platform := {|
  toLowerCase := fmap lower;
  toUpperCase := fmap upper;
  encodeURIComponent := encode;
  JSON_stringify := stringify;
  JSON_parse := parse
|}.

End RefPlatform.

(** ** The vocabulary of the specification *)

(** The error taxonomy of spec section 7, as far as lookups go. *)
Inductive ErrorKind : Type :=
  | InvalidInput | NotFound | Timeout | NetworkError | Unknown.

(** How [handleSearchError] reads a thrown error. *)
Definition kind_of (e : JSError) : ErrorKind :=
  if decide (message e = js "WORD_NOT_FOUND") then NotFound
  else if decide (message e = js "TIMEOUT") then Timeout
  else if decide (message e = js "NETWORK_ERROR") then NetworkError
  else Unknown.

(** The title of the error panel for each kind. *)
Definition title_of (k : ErrorKind) : list N :=
  match k with
  | InvalidInput => js "Invalid Input"
  | NotFound => js "Word Not Found"
  | Timeout => js "Request Timeout"
  | NetworkError => js "Network Error"
  | Unknown => js "Unexpected Error"
  end.

(** The page is in the state [Error(kind, _)]: the error panel is the one
    on display and carries the title of [kind]. *)
Definition in_error (k : ErrorKind) (w : World) : Prop :=
  errorContainer_hidden (ui w) = false
  ∧ wordDisplay_hidden (ui w) = true
  ∧ loadingState_hidden (ui w) = true
  ∧ errorTitle (ui w) = title_of k.

(** A lookup fails with [kind]. *)
Definition fails_with {A} (k : ErrorKind) (c : Completion A) : Prop :=
  match c with
  | Throw e => kind_of e = k
  | Return _ => False
  end.

(** The words handed to the lookup client, oldest first. *)
Definition lookups (t : list Event) : list (list N) :=
  omap (λ e, match e with Lookup w => Some w | _ => None end) t.

(** The requests that went out, oldest first. *)
Definition requests (t : list Event) : list (list N) :=
  omap (λ e, match e with Request u => Some u | _ => None end) t.

(** The requests that were cancelled. *)
Definition aborts (t : list Event) : list (list N) :=
  omap (λ e, match e with Abort u => Some u | _ => None end) t.

(** The number of times [x] occurs in [l]. *)
Definition occurrences (x : list N) (l : list (list N)) : nat :=
  length (filter (λ y, y = x) l).

(** Each element once, at the place of its first occurrence. *)
Fixpoint first_seen (l : list (list N)) : list (list N) :=
  match l with
  | [] => []
  | x :: r => x :: filter (λ y, y ≠ x) (first_seen r)
  end.

(** Every synonym listed anywhere in the meanings, in reading order:
    for each meaning its own list, then the lists of its definitions. *)
Definition all_synonyms (ms : list Meaning) : list (list N) :=
  ms ≫= λ m, default [] (m_synonyms m)
              ++ (definitions m ≫= λ d, default [] (d_synonyms d)).

Definition all_antonyms (ms : list Meaning) : list (list N) :=
  ms ≫= λ m, default [] (m_antonyms m)
              ++ (definitions m ≫= λ d, default [] (d_antonyms d)).

Section Collect.
(** The two collectors differ only in the fields they read: the loop of
    [collectSynonyms] and [collectAntonyms] over those fields, and the
    strings listed in them in reading order. *)
Variable of_meaning : Meaning → option (list (list N)).
Variable of_def : Def → option (list (list N)).

Definition collect (ms : list Meaning) : list (list N) :=
  foldl (λ set meaning,
           foldl (λ set def, add_all (of_def def) set)
                 (add_all (of_meaning meaning) set)
                 (definitions meaning))
        [] ms.

Definition listed (ms : list Meaning) : list (list N) :=
  ms ≫= λ m, default [] (of_meaning m)
              ++ (definitions m ≫= λ d, default [] (of_def d)).

End Collect.

(** The invariant of a bounded word list (spec section 3). *)
Definition bounded_list (capacity : nat) (l : list (list N)) : Prop :=
  NoDup l ∧ (length l ≤ capacity)%nat.

(** Both lists of the application are bounded lists. *)
Definition lists_bounded (w : World) : Prop :=
  bounded_list APP_CONSTANTS.MAX_HISTORY_ITEMS (searchHistory (state w))
  ∧ bounded_list APP_CONSTANTS.MAX_FAVORITES_ITEMS (favorites (state w)).

(** The page agrees with the favorites: the star is lit exactly when the
    current word is a favorite, and the favorites sidebar, while it is the
    open one, lists the favorites as they are. *)
Definition favorites_in_sync `{Platform} (w : World) : Prop :=
  (∀ wordData, currentWord (state w) = cw_entry wordData →
     favoriteBtn_active (ui w)
     = includes (Lexical.word wordData) (favorites (state w)))
  ∧ (activeSidebar w = Some favoritesSidebar →
     favoritesList (ui w)
     = UIManager.renderSidebarList (favorites (state w))
         (js "No favorite words yet. Click the star to save words!")).

(** The store holds the two lists as they are in memory. *)
Definition persisted `{Platform} (w : World) : Prop :=
  StorageManager.load STORAGE_KEYS.SEARCH_HISTORY (words_value [])
    (localStorage w) = words_value (searchHistory (state w))
  ∧ StorageManager.load STORAGE_KEYS.FAVORITES (words_value [])
      (localStorage w) = words_value (favorites (state w)).

(** The application before anything was looked up, on a page as loaded. *)
Definition fresh (st : Storage) : World :=
  {| state := {| currentWord := cw_null; searchHistory := [];
                 favorites := [] |};
     ui := {| wordInput := []; loadingState_hidden := true;
              errorContainer_hidden := true; wordDisplay_hidden := true;
              errorTitle := []; errorMessage := []; wordTitle := [];
              favoriteBtn_active := false;
              synonymsList := []; synonymsContainer_hidden := true;
              antonymsList := []; antonymsContainer_hidden := true;
              historyList := []; favoritesList := [] |};
     activeSidebar := None; localStorage := st; trace := [] |}.

(** The four ways [searchWord] can end. *)
Inductive SearchOutcome `{Platform} (net : Network) (word : list N)
    (w w' : World) : Prop :=
  | search_refused :
      blank word →
      w' = set_ui (UIManager.showError (js "Invalid Input")
                     (js "Please enter a word to look up.") (ui w)) w →
      SearchOutcome net word w w'
  | search_failed (e : JSError) :
      ¬ blank word →
      (DictionaryAPI.fetchWord net (toLowerCase (trim word))).2 = Throw e →
      state w' = state w →
      localStorage w' = localStorage w →
      favoriteBtn_active (ui w') = favoriteBtn_active (ui w) →
      in_error (kind_of e) w' →
      SearchOutcome net word w w'
  | search_undefined :
      ¬ blank word →
      (DictionaryAPI.fetchWord net (toLowerCase (trim word))).2
      = Return None →
      state w' = set_currentWord cw_undefined (state w) →
      localStorage w' = localStorage w →
      in_error Unknown w' →
      SearchOutcome net word w w'
  | search_displayed (wordData : Entry) :
      ¬ blank word →
      (DictionaryAPI.fetchWord net (toLowerCase (trim word))).2
      = Return (Some wordData) →
      state w'
      = {| currentWord := cw_entry wordData;
           searchHistory :=
             take APP_CONSTANTS.MAX_HISTORY_ITEMS
               (Lexical.word wordData
                :: filter (λ x, x ≠ Lexical.word wordData)
                     (searchHistory (state w)));
           favorites := favorites (state w) |} →
      localStorage w'
      = (StorageManager.save STORAGE_KEYS.SEARCH_HISTORY
           (words_value (searchHistory (state w'))) (localStorage w)).2 →
      ui w'
      = UIManager.renderWord wordData
          (includes (Lexical.word wordData) (favorites (state w)))
          (UIManager.showLoading
             (UIManager.assign_wordInput (toLowerCase (trim word)) (ui w))) →
      SearchOutcome net word w w'.

(** ** Sample data *)

Module Sample.

(** An entry with nothing but its word. *)
Definition entry_of (w : list N) : Entry :=
  {| word := w; phonetic := None; phonetics := None; meanings := [];
     sourceUrls := None |}.

Definition roomy_store : Storage := {| items := ∅; quota := 5000000 |}.

(** A store that refuses every write (no quota left). *)
Definition full_store : Storage := {| items := ∅; quota := 0 |}.

(** A page that shows a word. *)
Definition page : UI :=
  {| wordInput := []; loadingState_hidden := true;
     errorContainer_hidden := true; wordDisplay_hidden := false;
     errorTitle := []; errorMessage := []; wordTitle := js "Language";
     favoriteBtn_active := false;
     synonymsList := []; synonymsContainer_hidden := true;
     antonymsList := []; antonymsContainer_hidden := true;
     historyList := []; favoritesList := [] |}.

(** The application showing [current], with the given favorites. *)
Definition world (current : list N) (favs : list (list N)) : World :=
  {| state := {| currentWord := cw_entry (entry_of current);
                 searchHistory := [current]; favorites := favs |};
     ui := page; activeSidebar := None; localStorage := roomy_store;
     trace := [] |}.

(** A network that answers every request the same way. *)
Definition always (x : Exchange) : Network := λ _, x.

Definition answers (ms : N) (st : N) (body : option (list Entry))
  : Exchange :=
  {| settles_at := Some ms;
     settlement := Fulfilled {| status := st; json_body := body |};
     body_takes := 0 |}.


Definition unreachable : Exchange :=
  {| settles_at := Some 30; settlement := Rejected; body_takes := 0 |}.

Definition silent : Exchange :=
  {| settles_at := None; settlement := Rejected; body_takes := 0 |}.

(** An entry with related words at both levels. *)
Definition greeting : Entry :=
  {| word := js "hello"; phonetic := None; phonetics := None;
     meanings :=
       [ {| partOfSpeech := js "exclamation";
            definitions :=
              [ {| definition := js "used as a greeting"; example := None;
                   d_synonyms := Some [js "hi"; js "hey"];
                   d_antonyms := Some [js "bye"] |};
                {| definition := js "said on the telephone"; example := None;
                   d_synonyms := None; d_antonyms := Some [] |} ];
            m_synonyms := Some [js "greetings"; js "hi"];
            m_antonyms := Some [js "goodbye"] |};
         {| partOfSpeech := js "noun";
            definitions :=
              [ {| definition := js "an utterance of hello"; example := None;
                   d_synonyms := Some [js "hey"; js "salutation"];
                   d_antonyms := Some [js "goodbye"; js "bye"] |} ];
            m_synonyms := None;
            m_antonyms := None |} ];
     sourceUrls := None |}.

(** A hundred distinct words: [[0], [1], ..] *)
Definition hundred : list (list N) := (λ n, [N.of_nat n]) <$> seq 0 100.

End Sample.

(** * Properties *)

(** ** Strings *)

Lemma trimStart_nil_iff (s : list N) : trimStart s = [] ↔ blank s.
Proof.
  unfold blank. induction s as [|c r IH]; simpl; [done|].
  destruct (isWhiteSpace c); simpl; [done|]. split; discriminate.
Qed.

Lemma blank_app (s t : list N) : blank (s ++ t) ↔ blank s ∧ blank t.
Proof.
  unfold blank. rewrite forallb_app, andb_true_iff. done.
Qed.

Lemma blank_reverse (s : list N) : blank (reverse s) ↔ blank s.
Proof.
  induction s as [|c r IH]; [done|].
  rewrite reverse_cons, blank_app, IH. unfold blank. simpl.
  rewrite !andb_true_iff. tauto.
Qed.

Lemma trimStart_head (s : list N) :
  match trimStart s with
  | [] => True
  | c :: _ => isWhiteSpace c = false
  end.
Proof.
  induction s as [|c r IH]; simpl; [done|].
  destruct (isWhiteSpace c) eqn:E; [done|]. simpl. done.
Qed.

Lemma trimStart_blank_nil (s : list N) : blank (trimStart s) → trimStart s = [].
Proof.
  intros Hb. pose proof (trimStart_head s) as Hh.
  destruct (trimStart s) as [|c r]; [done|].
  unfold blank in Hb. simpl in Hb. rewrite Hh in Hb. discriminate.
Qed.

(** [trim] leaves nothing exactly when the string is blank. *)
Lemma trim_nil_iff (s : list N) : trim s = [] ↔ blank s.
Proof.
  unfold trim, trimEnd. split.
  - intros Ht. apply (f_equal reverse) in Ht.
    rewrite reverse_involutive in Ht. change (reverse []) with (@nil N) in Ht.
    apply trimStart_nil_iff, blank_reverse, trimStart_blank_nil in Ht.
    by apply trimStart_nil_iff.
  - intros Hb. apply trimStart_nil_iff in Hb. by rewrite Hb.
Qed.

Lemma truthy_false_iff (s : list N) : truthy s = false ↔ s = [].
Proof. by destruct s. Qed.

Lemma blank_nil_or (s : list N) :
  negb (truthy s) || bool_decide (trim s = []) = bool_decide (blank s).
Proof.
  destruct s as [|c r]; [done|]. simpl.
  apply bool_decide_ext, trim_nil_iff.
Qed.

(** ** The storage adapter *)

Lemma save_success `{Platform} key v st st' :
  StorageManager.save key v st = (true, st') →
  getItem key st' = Some (JSON_stringify v).
Proof.
  unfold StorageManager.save, setItem, getItem.
  destruct (usage _ <=? quota st); intros [= <-]. simpl.
  apply lookup_insert_eq.
Qed.

Lemma save_failure `{Platform} key v st st' :
  StorageManager.save key v st = (false, st') → st' = st.
Proof.
  unfold StorageManager.save.
  destruct (setItem _ _ _); by intros [= <-].
Qed.

Lemma save_other_key `{Platform} key key' v st :
  key ≠ key' →
  getItem key' (StorageManager.save key v st).2 = getItem key' st.
Proof.
  intros Hne. unfold StorageManager.save, setItem, getItem.
  destruct (usage _ <=? quota st); simpl; [|done].
  by apply lookup_insert_ne.
Qed.

(** C6 (as amended). When the store accepts the write, a JSON-serializable
    value saved under a key is what [load] returns for that key, whatever
    the default; and [load] of a key that holds nothing returns the
    default. *)
Theorem store_round_trip `{Platform}
    (key : list N) (v d : JSON) (st : Storage) :
  (JSON_serializable v →
   (StorageManager.save key v st).1 = true →
   StorageManager.load key d (StorageManager.save key v st).2 = v)
  ∧ (getItem key st = None → StorageManager.load key d st = d).
Proof.
  split.
  - intros [Hne Hparse] Hok.
    destruct (StorageManager.save key v st) as [b st'] eqn:E.
    simpl in *. subst b. apply save_success in E.
    unfold StorageManager.load. rewrite E, Hparse.
    destruct (JSON_stringify v); [done|reflexivity].
  - intros Hnone. unfold StorageManager.load. by rewrite Hnone.
Qed.

Lemma store_round_trip_witness :
  StorageManager.load (H := RefPlatform.ref) STORAGE_KEYS.FAVORITES JNull
    (StorageManager.save (H := RefPlatform.ref) STORAGE_KEYS.FAVORITES
       (words_value [js "hello"; js "world"]) Sample.roomy_store).2
  = words_value [js "hello"; js "world"]
  ∧ StorageManager.load (H := RefPlatform.ref) STORAGE_KEYS.THEME
      (JBool false) Sample.roomy_store = JBool false.
Proof.
  split.
  - apply (store_round_trip (H := RefPlatform.ref)).
    + split; [vm_compute; discriminate | vm_compute; reflexivity].
    + vm_compute; reflexivity.
  - apply (store_round_trip (H := RefPlatform.ref) _ JNull).
    vm_compute; reflexivity.
Defined.

(** C6 (as stated) fails when the store refuses the write: [save] returns
    [false], nothing is stored, and [load] hands back the default. *)
Lemma store_round_trip_fails_when_full :
  JSON_serializable (H := RefPlatform.ref) (JBool true)
  ∧ StorageManager.save (H := RefPlatform.ref) STORAGE_KEYS.THEME
      (JBool true) Sample.full_store = (false, Sample.full_store)
  ∧ StorageManager.load (H := RefPlatform.ref) STORAGE_KEYS.THEME
      (JBool false)
      (StorageManager.save (H := RefPlatform.ref) STORAGE_KEYS.THEME
         (JBool true) Sample.full_store).2
    ≠ JBool true.
Proof.
  split; [split; [vm_compute; discriminate | vm_compute; reflexivity]|].
  split; [vm_compute; reflexivity | vm_compute; discriminate].
Qed.

(** ** The reference platform round-trips what the program stores *)

Section RefJSON.
Import RefPlatform.

Lemma parse_chars_raw (c : N) (t : list N) :
  c ≠ 34 → c ≠ 92 →
  parse_chars (c :: t)
  = if (c <? 32) || (c =? 92) then None
    else (λ p : list N * list N, (c :: p.1, p.2)) <$> parse_chars t.
Proof.
  intros H34 H92.
  destruct c as [|p]; [reflexivity|].
  do 7 (try (destruct p as [p|p|]; try reflexivity; try congruence)).
Qed.

Lemma parse_chars_escape (c : N) (t : list N) :
  parse_chars (escape c ++ t)
  = (λ p : list N * list N, (c :: p.1, p.2)) <$> parse_chars t.
Proof.
  unfold escape.
  destruct (N.eqb_spec c 34) as [->|H34]; [reflexivity|].
  destruct (N.eqb_spec c 92) as [->|H92]; [reflexivity|].
  destruct (N.eqb_spec c 8) as [->|H8]; [reflexivity|].
  destruct (N.eqb_spec c 12) as [->|H12]; [reflexivity|].
  destruct (N.eqb_spec c 10) as [->|H10]; [reflexivity|].
  destruct (N.eqb_spec c 13) as [->|H13]; [reflexivity|].
  destruct (N.eqb_spec c 9) as [->|H9]; [reflexivity|].
  destruct (N.ltb_spec c 32) as [Hlt|Hge].
  - destruct c as [|p]; [simpl; by destruct (parse_chars t) as [[]|]|].
    do 5 (try (destruct p as [p|p|]; try lia));
      simpl; by destruct (parse_chars t) as [[]|].
  - change ([c] ++ t) with (c :: t). rewrite parse_chars_raw by done.
    destruct (N.ltb_spec c 32); [lia|].
    destruct (N.eqb_spec c 92); [done|]. reflexivity.
Qed.

Lemma parse_chars_quoted (s t : list N) :
  parse_chars ((s ≫= escape) ++ 34 :: t) = Some (s, t).
Proof.
  induction s as [|c s IH]; [reflexivity|].
  rewrite bind_cons, <- app_assoc, parse_chars_escape, IH. reflexivity.
Qed.

Lemma stringify_arr l : stringify (JArr l) = 91 :: elems l ++ [93].
Proof. reflexivity. Qed.

Lemma parse_value_quote (f : nat) (r : list N) :
  parse_value (S f) (34 :: r)
  = (λ p : list N * list N, (JStr p.1, p.2)) <$> parse_chars r.
Proof. reflexivity. Qed.

Lemma parse_value_open (f : nat) (s : list N) :
  (∃ r, s = 34 :: r) →
  parse_value (S f) (91 :: s)
  = (λ p : list JSON * list N, (JArr p.1, p.2)) <$> parse_elems f s.
Proof. intros [r ->]. reflexivity. Qed.

Lemma parse_elems_comma (f : nat) (s r : list N) (v : JSON) :
  parse_value f s = Some (v, 44 :: r) →
  parse_elems (S f) s
  = (λ p : list JSON * list N, (v :: p.1, p.2)) <$> parse_elems f r.
Proof. intros E. cbn [parse_elems]. rewrite E. reflexivity. Qed.

Lemma parse_elems_close (f : nat) (s r : list N) (v : JSON) :
  parse_value f s = Some (v, 93 :: r) →
  parse_elems (S f) s = Some ([v], r).
Proof. intros E. cbn [parse_elems]. rewrite E. reflexivity. Qed.

Lemma parse_value_string (fuel : nat) (s t : list N) :
  parse_value (S fuel) (quote s ++ t) = Some (JStr s, t).
Proof.
  unfold quote. rewrite <- app_comm_cons, <- app_assoc.
  rewrite parse_value_quote.
  change ([34] ++ t) with (34 :: t). by rewrite parse_chars_quoted.
Qed.

Lemma elems_words_cons (x : list N) (l : list (list N)) :
  elems (JStr <$> x :: l)
  = quote x ++ match l with [] => [] | _ :: _ => 44 :: elems (JStr <$> l) end.
Proof. destruct l; simpl; [by rewrite app_nil_r|done]. Qed.

Lemma parse_elems_words (l : list (list N)) (x : list N) (fuel : nat) (t : list N) :
  (length l + 2 ≤ fuel)%nat →
  parse_elems fuel (elems (JStr <$> x :: l) ++ 93 :: t) = Some (JStr <$> x :: l, t).
Proof.
  revert x fuel. induction l as [|y l IH]; intros x fuel Hf;
    (destruct fuel as [|[|f]]; [simpl in Hf; lia..|]);
    rewrite elems_words_cons, <- app_assoc.
  - by rewrite (parse_elems_close _ _ t (JStr x)) by apply parse_value_string.
  - rewrite (parse_elems_comma _ _ (elems (JStr <$> y :: l) ++ 93 :: t) (JStr x))
      by apply parse_value_string.
    rewrite IH by (simpl in *; lia). reflexivity.
Qed.

Lemma length_elems_words (l : list (list N)) :
  (length l ≤ length (elems (JStr <$> l)))%nat.
Proof.
  induction l as [|x l IH]; [done|].
  rewrite elems_words_cons, length_app. unfold quote.
  destruct l; simpl in *; lia.
Qed.

Lemma ref_words_serializable (l : list (list N)) :
  JSON_serializable (H := ref) (words_value l).
Proof.
  split; [done|].
  change (parse (stringify (JArr (JStr <$> l))) = Some (JArr (JStr <$> l))).
  unfold parse. rewrite stringify_arr.
  pose proof (length_elems_words l) as Hlen.
  destruct l as [|x l]; [reflexivity|].
  remember (2 * length (91%N :: elems (JStr <$> x :: l) ++ [93%N]) + 2)%nat
    as fuel eqn:Hfuel.
  rewrite length_cons, length_app in Hfuel.
  destruct fuel as [|f]; [lia|].
  rewrite parse_value_open.
  - rewrite (parse_elems_words l x f []) by (simpl in *; lia). reflexivity.
  - rewrite elems_words_cons. unfold quote. eauto.
Qed.

Lemma ref_bool_serializable (b : bool) :
  JSON_serializable (H := ref) (JBool b).
Proof. by destruct b. Qed.

End RefJSON.

(** On the reference platform, a history that was written is read back. *)
Lemma history_persisted (word : list N) (w : World) (d : JSON) :
  let w' := WordlyApp.addToHistory (H := RefPlatform.ref) word w in
  (StorageManager.save (H := RefPlatform.ref) STORAGE_KEYS.SEARCH_HISTORY
     (words_value (searchHistory (state w'))) (localStorage w)).1 = true →
  StorageManager.load (H := RefPlatform.ref) STORAGE_KEYS.SEARCH_HISTORY d
    (localStorage w')
  = words_value (searchHistory (state w')).
Proof.
  intros w' Hok. subst w'.
  destruct (StorageManager.save (H := RefPlatform.ref)
              STORAGE_KEYS.SEARCH_HISTORY
              (words_value (searchHistory
                 (state (WordlyApp.addToHistory (H := RefPlatform.ref) word w))))
              (localStorage w)) as [b st'] eqn:E.
  simpl in Hok. subst b.
  change (localStorage (WordlyApp.addToHistory (H := RefPlatform.ref) word w))
    with (StorageManager.save (H := RefPlatform.ref)
            STORAGE_KEYS.SEARCH_HISTORY
            (words_value (searchHistory
               (state (WordlyApp.addToHistory (H := RefPlatform.ref) word w))))
            (localStorage w)).2.
  rewrite E. cbn [snd]. apply save_success in E.
  destruct (ref_words_serializable
              (searchHistory
                 (state (WordlyApp.addToHistory (H := RefPlatform.ref) word w))))
    as [Hne Hparse].
  unfold StorageManager.load. rewrite E, Hparse.
  by destruct (JSON_stringify _).
Qed.

(** ** The lookup client *)

Lemma catch_not_found :
  DictionaryAPI.catch (Error (js "WORD_NOT_FOUND"))
  = Throw (Error (js "WORD_NOT_FOUND")).
Proof. reflexivity. Qed.

(** The error thrown at line 251 does not leave [fetchWord]: its own
    [catch] block replaces it. *)
Lemma catch_api_error :
  DictionaryAPI.catch (Error (js "API_ERROR"))
  = Throw (Error (js "NETWORK_ERROR")).
Proof. reflexivity. Qed.

Lemma catch_abort :
  DictionaryAPI.catch abortError = Throw (Error (js "TIMEOUT")).
Proof. reflexivity. Qed.

Lemma on_response_not_ok (r : Response) :
  ok r = false →
  DictionaryAPI.on_response r
  = if status r =? 404
    then Throw (Error (js "WORD_NOT_FOUND"))
    else Throw (Error (js "NETWORK_ERROR")).
Proof.
  intros Hok. unfold DictionaryAPI.on_response. rewrite Hok. simpl.
  by destruct (status r =? 404).
Qed.

Lemma ok_404 (r : Response) : status r = 404 → ok r = false.
Proof. intros E. unfold ok. by rewrite E. Qed.

Lemma fetchWord_settled `{Platform} net word u :
  encodeURIComponent word = Some u →
  let url := API_CONFIG.BASE_URL ++ js "/" ++ u in
  settles_before (net url) API_CONFIG.TIMEOUT = true →
  DictionaryAPI.fetchWord net word
  = ([Request url],
     match settlement (net url) with
     | Fulfilled r => DictionaryAPI.on_response r
     | Rejected => Throw (Error (js "NETWORK_ERROR"))
     end).
Proof.
  intros Hu url Hs. unfold DictionaryAPI.fetchWord. rewrite Hu.
  fold url. rewrite Hs. by destruct (settlement (net url)).
Qed.



(** Every way [fetchWord] can fail, by outcome of the exchange. The third
    line is where the code departs from the error taxonomy: a non-success
    status other than 404 ends as [NETWORK_ERROR]. *)
Lemma fetchWord_failures `{Platform} net word u :
  encodeURIComponent word = Some u →
  let x := net (API_CONFIG.BASE_URL ++ js "/" ++ u) in
  let c := (DictionaryAPI.fetchWord net word).2 in
  settles_before x API_CONFIG.TIMEOUT = true →
  (settlement x = Rejected → fails_with NetworkError c)
  ∧ (∀ r, settlement x = Fulfilled r → status r = 404 →
       fails_with NotFound c)
  ∧ (∀ r, settlement x = Fulfilled r → ok r = false → status r ≠ 404 →
       fails_with NetworkError c)
  ∧ (∀ r, settlement x = Fulfilled r → ok r = true → json_body r = None →
       fails_with NetworkError c).
Proof.
  intros Hu x c Hs. subst c.
  rewrite (fetchWord_settled net word u Hu Hs). fold x. simpl.
  repeat split.
  - by intros ->.
  - intros r -> E. rewrite (on_response_not_ok r (ok_404 r E)).
    by rewrite E.
  - intros r -> Hok Hne. rewrite (on_response_not_ok r Hok).
    apply N.eqb_neq in Hne. by rewrite Hne.
  - intros r -> Hok Hb. unfold DictionaryAPI.on_response.
    by rewrite Hok, Hb.
Qed.

(** C4 (where the code departs from it). A response with status 500 makes
    [fetchWord] throw [NETWORK_ERROR], which [handleSearchError] reads as the
    Network kind, not as the Unknown (generic API) error. *)
Theorem fetchWord_status_500 :
  let c := (DictionaryAPI.fetchWord (H := RefPlatform.ref)
              (Sample.always (Sample.answers 120 500 None)) (js "hello")).2 in
  c = Throw (Error (js "NETWORK_ERROR"))
  ∧ fails_with NetworkError c
  ∧ ¬ fails_with Unknown c.
Proof.
  split; [vm_compute; reflexivity|].
  split; [vm_compute; reflexivity | vm_compute; discriminate].
Qed.

(** C9. A response with status 200 whose body is the empty array makes
    [fetchWord] return [undefined]: neither an entry nor a failure. *)
Theorem fetchWord_empty_array `{Platform} net word u r :
  encodeURIComponent word = Some u →
  let x := net (API_CONFIG.BASE_URL ++ js "/" ++ u) in
  settles_before x API_CONFIG.TIMEOUT = true →
  settlement x = Fulfilled r →
  status r = 200 →
  json_body r = Some [] →
  (DictionaryAPI.fetchWord net word).2 = Return None.
Proof.
  intros Hu x Hs Hr Hst Hb.
  rewrite (fetchWord_settled net word u Hu Hs). fold x. simpl.
  rewrite Hr. unfold DictionaryAPI.on_response, ok. by rewrite Hst, Hb.
Qed.

Lemma fetchWord_empty_array_witness :
  (DictionaryAPI.fetchWord (H := RefPlatform.ref)
     (Sample.always (Sample.answers 120 200 (Some []))) (js "hello")).2
  = Return None.
Proof.
  apply (fetchWord_empty_array (H := RefPlatform.ref) _ _ (js "hello")
           {| status := 200; json_body := Some [] |});
    vm_compute; reflexivity.
Defined.

(** ** Aggregation of related words *)

Lemma first_seen_elem (x : list N) (l : list (list N)) :
  x ∈ first_seen l ↔ x ∈ l.
Proof.
  induction l as [|y r IH]; simpl; [done|].
  rewrite !elem_of_cons, list_elem_of_filter, IH.
  destruct (decide (x = y)); naive_solver.
Qed.

Lemma first_seen_NoDup (l : list (list N)) : NoDup (first_seen l).
Proof.
  induction l as [|y r IH]; simpl; [constructor|].
  constructor.
  - rewrite list_elem_of_filter. naive_solver.
  - by apply NoDup_filter.
Qed.

Lemma Set_add_first_seen (x : list N) (p : list (list N)) :
  Set_add x (first_seen p) = first_seen (p ++ [x]).
Proof.
  induction p as [|y p IH]; [done|].
  simpl. rewrite <- IH. unfold Set_add.
  destruct (decide (x ∈ first_seen p)) as [Hin|Hout].
  - rewrite decide_True; [done|].
    destruct (decide (x = y)) as [->|Hne]; [left|].
    right. by apply list_elem_of_filter.
  - rewrite filter_app. simpl.
    destruct (decide (x = y)) as [->|Hne].
    + rewrite decide_True by left.
      rewrite filter_cons_False by naive_solver.
      by rewrite filter_nil, app_nil_r.
    + rewrite decide_False.
      * by rewrite filter_cons_True, filter_nil.
      * rewrite elem_of_cons, list_elem_of_filter. naive_solver.
Qed.

Lemma add_all_first_seen (o : option (list (list N))) (p : list (list N)) :
  add_all o (first_seen p) = first_seen (p ++ default [] o).
Proof.
  assert (∀ l q, foldl (λ acc x, Set_add x acc) (first_seen q) l
                 = first_seen (q ++ l)) as Hfold.
  { induction l as [|x l IH]; intros q; simpl.
    - by rewrite app_nil_r.
    - rewrite Set_add_first_seen, IH, <- app_assoc. done. }
  unfold add_all. destruct o as [[|x l]|]; simpl.
  - by rewrite app_nil_r.
  - rewrite Set_add_first_seen, Hfold, <- app_assoc. done.
  - by rewrite app_nil_r.
Qed.

Section Collect.
Variable of_meaning : Meaning → option (list (list N)).
Variable of_def : Def → option (list (list N)).

Lemma collect_defs (ds : list Def) (p : list (list N)) :
  foldl (λ set def, add_all (of_def def) set) (first_seen p) ds
  = first_seen (p ++ (ds ≫= λ d, default [] (of_def d))).
Proof.
  revert p. induction ds as [|d ds IH]; intros p; simpl.
  - by rewrite app_nil_r.
  - rewrite add_all_first_seen, IH, <- app_assoc. done.
Qed.

Lemma collect_from (ms : list Meaning) (p : list (list N)) :
  foldl (λ set meaning,
           foldl (λ set def, add_all (of_def def) set)
                 (add_all (of_meaning meaning) set)
                 (definitions meaning))
        (first_seen p) ms
  = first_seen (p ++ listed of_meaning of_def ms).
Proof.
  revert p. induction ms as [|m ms IH]; intros p; simpl.
  - by rewrite app_nil_r.
  - rewrite add_all_first_seen, collect_defs, IH.
    by rewrite <- !app_assoc.
Qed.

Lemma collect_first_seen (ms : list Meaning) :
  collect of_meaning of_def ms = first_seen (listed of_meaning of_def ms).
Proof. apply (collect_from ms []). Qed.

End Collect.

(** What "first-seen order" means for [first_seen]: the elements that come
    before [x] in the result are the ones read before the first [x]. *)
Lemma first_seen_order (l1 l2 : list (list N)) (x : list N) :
  x ∉ l1 →
  ∃ r2, first_seen (l1 ++ x :: l2) = first_seen l1 ++ x :: r2.
Proof.
  induction l1 as [|y l1 IH]; intros Hx; simpl.
  - eauto.
  - apply not_elem_of_cons in Hx as [Hne Hx].
    destruct (IH Hx) as [r2 ->].
    rewrite filter_app, filter_cons_True by done. eauto.
Qed.

(** C5. The synonyms (and the antonyms) that [renderWord] shows are the
    strings listed at meaning level and at definition level across all
    meanings, each exactly once, in the order of their first occurrence. *)
Theorem aggregate_first_seen (ms : list Meaning) :
  (DictionaryAPI.collectSynonyms ms = first_seen (all_synonyms ms)
   ∧ NoDup (DictionaryAPI.collectSynonyms ms)
   ∧ ∀ x, x ∈ DictionaryAPI.collectSynonyms ms ↔ x ∈ all_synonyms ms)
  ∧ (DictionaryAPI.collectAntonyms ms = first_seen (all_antonyms ms)
     ∧ NoDup (DictionaryAPI.collectAntonyms ms)
     ∧ ∀ x, x ∈ DictionaryAPI.collectAntonyms ms ↔ x ∈ all_antonyms ms).
Proof.
  pose proof (collect_first_seen m_synonyms d_synonyms ms) as Hs.
  pose proof (collect_first_seen m_antonyms d_antonyms ms) as Ha.
  change (collect m_synonyms d_synonyms ms)
    with (DictionaryAPI.collectSynonyms ms) in Hs.
  change (listed m_synonyms d_synonyms ms) with (all_synonyms ms) in Hs.
  change (collect m_antonyms d_antonyms ms)
    with (DictionaryAPI.collectAntonyms ms) in Ha.
  change (listed m_antonyms d_antonyms ms) with (all_antonyms ms) in Ha.
  rewrite Hs, Ha.
  repeat split; try apply first_seen_NoDup; by apply first_seen_elem.
Qed.

(** ** Search history *)

Lemma addToHistory_history `{Platform} (word : list N) (w : World) :
  searchHistory (state (WordlyApp.addToHistory word w))
  = take APP_CONSTANTS.MAX_HISTORY_ITEMS
      (word :: filter (λ x, x ≠ word) (searchHistory (state w))).
Proof.
  unfold WordlyApp.addToHistory. simpl.
  case_decide as Hlen; [done|].
  unfold APP_CONSTANTS.MAX_HISTORY_ITEMS in Hlen.
  f_equal. symmetry. apply take_ge. lia.
Qed.

Lemma addToHistory_state `{Platform} (word : list N) (w : World) :
  currentWord (state (WordlyApp.addToHistory word w)) = currentWord (state w)
  ∧ favorites (state (WordlyApp.addToHistory word w)) = favorites (state w)
  ∧ ui (WordlyApp.addToHistory word w) = ui w
  ∧ trace (WordlyApp.addToHistory word w) = trace w.
Proof. done. Qed.

Lemma addToHistory_storage `{Platform} (word : list N) (w : World) :
  localStorage (WordlyApp.addToHistory word w)
  = (StorageManager.save STORAGE_KEYS.SEARCH_HISTORY
       (words_value (searchHistory (state (WordlyApp.addToHistory word w))))
       (localStorage w)).2.
Proof. done. Qed.

Lemma occurrences_absent (x : list N) (l : list (list N)) :
  x ∉ l → occurrences x l = 0%nat.
Proof.
  intros Hx. unfold occurrences.
  induction l as [|y l IH]; [done|].
  apply not_elem_of_cons in Hx as [Hne Hx].
  rewrite filter_cons_False by done. by apply IH.
Qed.

Lemma occurrences_cons (x y : list N) (l : list (list N)) :
  occurrences x (y :: l)
  = ((if decide (y = x) then 1 else 0) + occurrences x l)%nat.
Proof.
  unfold occurrences. destruct (decide (y = x)).
  - by rewrite filter_cons_True.
  - by rewrite filter_cons_False.
Qed.

Lemma occurrences_pos (x : list N) (l : list (list N)) :
  x ∈ l → (0 < occurrences x l)%nat.
Proof.
  induction 1 as [y l|y z l Hin IH]; rewrite occurrences_cons.
  - rewrite decide_True by done. lia.
  - lia.
Qed.

Lemma history_head_once (word : list N) (h : list (list N)) :
  let h' := take APP_CONSTANTS.MAX_HISTORY_ITEMS
              (word :: filter (λ x, x ≠ word) h) in
  head h' = Some word ∧ occurrences word h' = 1%nat.
Proof.
  simpl. split; [done|].
  rewrite occurrences_cons, decide_True by done.
  rewrite occurrences_absent; [done|].
  intros Hin. apply (subseteq_take 49) in Hin.
  apply list_elem_of_filter in Hin. naive_solver.
Qed.

(** [addToHistory] establishes the invariant of the bounded list from any
    history without duplicates. *)
Lemma addToHistory_bounded `{Platform} (word : list N) (w : World) :
  NoDup (searchHistory (state w)) →
  bounded_list 50 (searchHistory (state (WordlyApp.addToHistory word w))).
Proof.
  intros Hnd. rewrite addToHistory_history. split.
  - eapply sublist_NoDup; [|apply sublist_take].
    constructor; [|by apply NoDup_filter].
    rewrite list_elem_of_filter. naive_solver.
  - rewrite length_take. unfold APP_CONSTANTS.MAX_HISTORY_ITEMS. lia.
Qed.

(** Past the guard of [searchWord]: the word is not blank. *)
Ltac search_accepted :=
  unfold WordlyApp.searchWord;
  rewrite blank_nil_or, bool_decide_eq_false_2 by done;
  cbv zeta.

(** The successful branch of [searchWord]. *)
Lemma searchWord_success `{Platform} net word w wordData :
  ¬ blank word →
  (DictionaryAPI.fetchWord net (toLowerCase (trim word))).2
  = Return (Some wordData) →
  state (WordlyApp.searchWord net word w)
  = {| currentWord := cw_entry wordData;
       searchHistory :=
         take APP_CONSTANTS.MAX_HISTORY_ITEMS
           (Lexical.word wordData
            :: filter (λ x, x ≠ Lexical.word wordData)
                 (searchHistory (state w)));
       favorites := favorites (state w) |}.
Proof.
  intros Hnb Hr. search_accepted.
  rewrite Hr. unfold set_ui at 1. cbn [state].
  match goal with
  | |- state (WordlyApp.addToHistory ?x ?w3) = _ =>
      destruct (addToHistory_state x w3) as (Hc & Hf & _ & _);
      pose proof (addToHistory_history x w3) as Hh
  end.
  destruct (state (WordlyApp.addToHistory _ _)) as [c h f].
  simpl in Hc, Hf, Hh. by subst.
Qed.

(** C2 (as amended). [addToHistory(W)] drops every occurrence of W, puts
    W in front and keeps the first 50 items; so W is the first element and
    occurs once, also when it was there before. A lookup that succeeds
    calls it with the word of the entry it got, [wordData.word]: after the
    lookup that word is the first element of the history and occurs
    once. *)
Theorem addToHistory_moves_to_front `{Platform} (W : list N) (w : World) :
  let h := searchHistory (state w) in
  let h' := searchHistory (state (WordlyApp.addToHistory W w)) in
  h' = take 50 (W :: filter (λ x, x ≠ W) h)
  ∧ head h' = Some W
  ∧ occurrences W h' = 1%nat
  ∧ ∀ net word wordData,
      ¬ blank word →
      (DictionaryAPI.fetchWord net (toLowerCase (trim word))).2
      = Return (Some wordData) →
      let h2 := searchHistory (state (WordlyApp.searchWord net word w)) in
      h2 = searchHistory
             (state (WordlyApp.addToHistory (Lexical.word wordData) w))
      ∧ head h2 = Some (Lexical.word wordData)
      ∧ occurrences (Lexical.word wordData) h2 = 1%nat.
Proof.
  intros h h'. subst h h'. rewrite addToHistory_history.
  pose proof (history_head_once W (searchHistory (state w))) as [Hh Ho].
  split; [done|]. split; [done|]. split; [done|].
  intros net word wordData Hnb Hr. cbv zeta.
  rewrite (searchWord_success net word w wordData Hnb Hr).
  cbn [searchHistory]. rewrite addToHistory_history.
  split; [done|]. apply history_head_once.
Qed.

Lemma addToHistory_moves_to_front_witness :
  let w := Sample.world (js "tree") [] in
  let w1 := WordlyApp.addToHistory (H := RefPlatform.ref) (js "leaf") w in
  let net := Sample.always
               (Sample.answers 80 200 (Some [Sample.entry_of (js "tree")])) in
  searchHistory (state w1) = [js "leaf"; js "tree"]
  ∧ head (searchHistory
            (state (WordlyApp.searchWord (H := RefPlatform.ref) net
                      (js " Tree ") w1)))
    = Some (js "tree").
Proof.
  intros w w1 net. split; [reflexivity|].
  apply (addToHistory_moves_to_front (H := RefPlatform.ref) (js "tree") w1)
    with (wordData := Sample.entry_of (js "tree")).
  - vm_compute. discriminate.
  - vm_compute. reflexivity.
Defined.

(** C2 (as stated) fails for the word that was looked up. The lookup of
    "Tree" succeeds with the entry of "tree": the history then starts with
    "tree", and "Tree" is not in it. Likewise when the lookup of "tree" is
    answered with an entry of another word: that word goes to the front,
    and "tree" is not in the history. *)
Lemma lookup_adds_entry_word :
  let w := Sample.world (js "leaf") [] in
  let tree := Sample.always
                (Sample.answers 80 200 (Some [Sample.entry_of (js "tree")])) in
  let oak := Sample.always
               (Sample.answers 80 200 (Some [Sample.entry_of (js "oak")])) in
  let w1 := WordlyApp.searchWord (H := RefPlatform.ref) tree (js "Tree") w in
  let w2 := WordlyApp.searchWord (H := RefPlatform.ref) oak (js "tree") w in
  (currentWord (state w1) = cw_entry (Sample.entry_of (js "tree"))
   ∧ head (searchHistory (state w1)) ≠ Some (js "Tree")
   ∧ occurrences (js "Tree") (searchHistory (state w1)) = 0%nat)
  ∧ (currentWord (state w2) = cw_entry (Sample.entry_of (js "oak"))
     ∧ head (searchHistory (state w2)) ≠ Some (js "tree")
     ∧ occurrences (js "tree") (searchHistory (state w2)) = 0%nat).
Proof.
  repeat split; try reflexivity; vm_compute; discriminate.
Qed.

(** C3. From a history of at most 50 items, no sequence of [addToHistory]
    calls takes the history over 50 items at any point. *)
Theorem history_never_exceeds_capacity `{Platform}
    (ws : list (list N)) (w : World) (k : nat) :
  (length (searchHistory (state w)) ≤ 50)%nat →
  (length (searchHistory
             (state (foldl (λ w x, WordlyApp.addToHistory x w) w (take k ws))))
   ≤ 50)%nat.
Proof.
  intros Hlen. generalize (take k ws). clear k ws. intros ws.
  revert w Hlen. induction ws as [|x ws IH]; intros w Hlen; simpl; [done|].
  apply IH. rewrite addToHistory_history.
  rewrite length_take. unfold APP_CONSTANTS.MAX_HISTORY_ITEMS. lia.
Qed.

Lemma history_never_exceeds_capacity_witness :
  (length (searchHistory
             (state (foldl (λ w x, WordlyApp.addToHistory (H := RefPlatform.ref) x w)
                       (Sample.world (js "tree") [])
                       (take 60 Sample.hundred))))
   ≤ 50)%nat.
Proof.
  apply (history_never_exceeds_capacity (H := RefPlatform.ref)).
  simpl. lia.
Defined.

(** ** Favorites *)

Lemma indexOf_None (x : list N) (l : list (list N)) :
  indexOf x l = None ↔ x ∉ l.
Proof.
  induction l as [|y r IH]; simpl.
  - split; [intros _; apply not_elem_of_nil | done].
  - rewrite not_elem_of_cons. destruct (decide (y = x)) as [->|Hne].
    + split; [discriminate | naive_solver].
    + destruct (indexOf x r); simpl; split; try discriminate; naive_solver.
Qed.

Lemma indexOf_Some (x : list N) (l : list (list N)) (i : nat) :
  indexOf x l = Some i → l !! i = Some x ∧ x ∉ take i l.
Proof.
  revert i. induction l as [|y r IH]; intros i; simpl; [discriminate|].
  destruct (decide (y = x)) as [->|Hne].
  - intros [= <-]. split; [done | apply not_elem_of_nil].
  - destruct (indexOf x r) as [j|]; simpl; [|discriminate].
    intros [= <-]. destruct (IH j eq_refl) as [Hl Ht].
    split; [done|]. simpl. rewrite not_elem_of_cons. naive_solver.
Qed.

Lemma indexOf_is_Some (x : list N) (l : list (list N)) :
  x ∈ l → ∃ i, indexOf x l = Some i.
Proof.
  intros Hin. destruct (indexOf x l) as [i|] eqn:E; [eauto|].
  by apply indexOf_None in E.
Qed.

Lemma indexOf_pushed (x : list N) (l : list (list N)) :
  x ∉ l → indexOf x (l ++ [x]) = Some (length l).
Proof.
  induction l as [|y r IH]; simpl; intros Hx.
  - by rewrite decide_True.
  - apply not_elem_of_cons in Hx as [Hne Hx].
    rewrite decide_False by done. by rewrite IH.
Qed.

Lemma occurrences_delete (x : list N) (l : list (list N)) (i : nat) :
  indexOf x l = Some i →
  occurrences x (delete i l) = (occurrences x l - 1)%nat.
Proof.
  revert i. induction l as [|y r IH]; intros i; simpl; [discriminate|].
  rewrite occurrences_cons.
  destruct (decide (y = x)) as [->|Hne].
  - intros [= <-]. simpl. lia.
  - destruct (indexOf x r) as [j|] eqn:E; simpl; [|discriminate].
    intros [= <-]. simpl.
    change (delete (S j) (y :: r)) with (y :: delete j r).
    rewrite occurrences_cons, decide_False, (IH j) by done. lia.
Qed.

Lemma occurrences_zero (x : list N) (l : list (list N)) :
  occurrences x l = 0%nat ↔ x ∉ l.
Proof.
  split; [|apply occurrences_absent].
  intros Hz Hin. apply occurrences_pos in Hin. lia.
Qed.

Lemma favoritesChanged_state `{Platform} word favs w :
  state (WordlyApp.favoritesChanged word favs w)
  = set_favorites favs (state w)
  ∧ trace (WordlyApp.favoritesChanged word favs w) = trace w
  ∧ localStorage (WordlyApp.favoritesChanged word favs w)
    = (StorageManager.save STORAGE_KEYS.FAVORITES (words_value favs)
         (localStorage w)).2
  ∧ favoriteBtn_active (ui (WordlyApp.favoritesChanged word favs w))
    = includes word favs.
Proof.
  unfold WordlyApp.favoritesChanged. cbv zeta.
  case_decide; done.
Qed.

(** The three branches of [toggleFavorite]. *)
Lemma toggleFavorite_remove `{Platform} w wordData i :
  currentWord (state w) = cw_entry wordData →
  indexOf (Lexical.word wordData) (favorites (state w)) = Some i →
  WordlyApp.toggleFavorite w
  = WordlyApp.favoritesChanged (Lexical.word wordData)
      (delete i (favorites (state w))) w.
Proof.
  intros Hc Hi. unfold WordlyApp.toggleFavorite. by rewrite Hc, Hi.
Qed.

Lemma toggleFavorite_reject `{Platform} w wordData :
  currentWord (state w) = cw_entry wordData →
  Lexical.word wordData ∉ favorites (state w) →
  (100 ≤ length (favorites (state w)))%nat →
  WordlyApp.toggleFavorite w = emit [Alert WordlyApp.capacityMessage] w.
Proof.
  intros Hc Hx Hlen. apply indexOf_None in Hx.
  unfold WordlyApp.toggleFavorite. rewrite Hc, Hx.
  by rewrite decide_True.
Qed.

Lemma toggleFavorite_add `{Platform} w wordData :
  currentWord (state w) = cw_entry wordData →
  Lexical.word wordData ∉ favorites (state w) →
  (length (favorites (state w)) < 100)%nat →
  WordlyApp.toggleFavorite w
  = WordlyApp.favoritesChanged (Lexical.word wordData)
      (favorites (state w) ++ [Lexical.word wordData]) w.
Proof.
  intros Hc Hx Hlen. apply indexOf_None in Hx.
  unfold WordlyApp.toggleFavorite. rewrite Hc, Hx.
  rewrite decide_False; [done|].
  unfold APP_CONSTANTS.MAX_FAVORITES_ITEMS. lia.
Qed.

Lemma toggleFavorite_currentWord `{Platform} w :
  currentWord (state (WordlyApp.toggleFavorite w)) = currentWord (state w).
Proof.
  unfold WordlyApp.toggleFavorite.
  destruct (currentWord (state w)) as [| |wordData] eqn:Hc; try done.
  destruct (indexOf _ _) as [i|].
  - destruct (favoritesChanged_state (Lexical.word wordData)
                (delete i (favorites (state w))) w) as [-> _]. done.
  - case_decide; [done|].
    destruct (favoritesChanged_state (Lexical.word wordData)
                (favorites (state w) ++ [Lexical.word wordData]) w)
      as [-> _]. done.
Qed.

(** [toggleFavorite] keeps a bounded list bounded. *)
Lemma toggleFavorite_bounded `{Platform} w :
  bounded_list 100 (favorites (state w)) →
  bounded_list 100 (favorites (state (WordlyApp.toggleFavorite w))).
Proof.
  intros [Hnd Hlen]. unfold WordlyApp.toggleFavorite.
  destruct (currentWord (state w)) as [| |wordData]; try done.
  destruct (indexOf _ _) as [i|] eqn:Hi.
  - destruct (favoritesChanged_state (Lexical.word wordData)
                (delete i (favorites (state w))) w) as [-> _]. simpl.
    split.
    + eapply sublist_NoDup; [done | apply sublist_delete].
    + pose proof (sublist_length _ _ (sublist_delete (favorites (state w)) i)).
      lia.
  - apply indexOf_None in Hi.
    case_decide as Hcap; [done|].
    destruct (favoritesChanged_state (Lexical.word wordData)
                (favorites (state w) ++ [Lexical.word wordData]) w)
      as [-> _]. simpl.
    unfold APP_CONSTANTS.MAX_FAVORITES_ITEMS in Hcap. split.
    + apply NoDup_app. repeat split; [done| |apply NoDup_singleton].
      intros y Hy Hy'. apply list_elem_of_singleton in Hy'. by subst.
    + rewrite length_app. simpl. lia.
Qed.

Lemma toggleFavorite_twice `{Platform} w wordData :
  currentWord (state w) = cw_entry wordData →
  (occurrences (Lexical.word wordData) (favorites (state w)) ≤ 1)%nat →
  (length (favorites (state w)) ≤ 100)%nat →
  Lexical.word wordData
    ∈ favorites (state (WordlyApp.toggleFavorite (WordlyApp.toggleFavorite w)))
  ↔ Lexical.word wordData ∈ favorites (state w).
Proof.
  intros Hc Hocc Hlen.
  set (x := Lexical.word wordData) in *.
  set (favs := favorites (state w)) in *.
  pose proof (toggleFavorite_currentWord w) as Hc'. rewrite Hc in Hc'.
  destruct (decide (x ∈ favs)) as [Hin|Hout].
  - (* removed, then added again *)
    destruct (indexOf_is_Some x favs Hin) as [i Hi].
    pose proof (toggleFavorite_remove w wordData i Hc Hi) as E1.
    destruct (favoritesChanged_state x (delete i favs) w) as [Hs _].
    fold x favs in E1. rewrite <- E1 in Hs.
    assert (favorites (state (WordlyApp.toggleFavorite w)) = delete i favs)
      as Hf by (by rewrite Hs).
    assert (x ∉ delete i favs) as Hgone.
    { apply occurrences_zero. rewrite (occurrences_delete x favs i Hi). lia. }
    assert (length (delete i favs) < 100)%nat as Hroom.
    { destruct (indexOf_Some x favs i Hi) as [Hl _].
      rewrite length_delete by eauto.
      apply lookup_lt_Some in Hl. lia. }
    rewrite (toggleFavorite_add _ wordData Hc');
      fold x; rewrite Hf; [|done..].
    destruct (favoritesChanged_state x (delete i favs ++ [x])
                (WordlyApp.toggleFavorite w)) as [-> _]. simpl.
    split; [done|]. intros _. apply elem_of_app. right. left.
  - destruct (decide (100 ≤ length favs)%nat) as [Hfull|Hroom].
    + (* rejected twice *)
      rewrite (toggleFavorite_reject w wordData Hc Hout Hfull).
      rewrite (toggleFavorite_reject _ wordData); done.
    + (* added, then removed *)
      assert (length favs < 100)%nat as Hlt by lia.
      pose proof (toggleFavorite_add w wordData Hc Hout Hlt) as E1.
      fold x favs in E1.
      destruct (favoritesChanged_state x (favs ++ [x]) w) as [Hs _].
      rewrite <- E1 in Hs.
      assert (favorites (state (WordlyApp.toggleFavorite w)) = favs ++ [x])
        as Hf by (by rewrite Hs).
      rewrite (toggleFavorite_remove _ wordData (length favs) Hc');
        fold x; rewrite Hf; [|by apply indexOf_pushed].
      destruct (favoritesChanged_state x
                  (delete (length favs) (favs ++ [x]))
                  (WordlyApp.toggleFavorite w)) as [-> _]. simpl.
      by rewrite delete_middle, app_nil_r.
Qed.

Lemma occurrences_NoDup (x : list N) (l : list (list N)) :
  NoDup l → (occurrences x l ≤ 1)%nat.
Proof.
  induction 1 as [|y l Hy Hnd IH]; [unfold occurrences; simpl; lia|].
  rewrite occurrences_cons. destruct (decide (y = x)) as [->|]; [|lia].
  rewrite occurrences_absent by done. lia.
Qed.

(** The favorites after two toggles, from a bounded list: a word that was
    there has moved to the end, nothing else has changed. *)
Lemma toggleFavorite_twice_list `{Platform} w wordData :
  currentWord (state w) = cw_entry wordData →
  bounded_list 100 (favorites (state w)) →
  favorites (state (WordlyApp.toggleFavorite (WordlyApp.toggleFavorite w)))
  = match indexOf (Lexical.word wordData) (favorites (state w)) with
    | Some i => delete i (favorites (state w)) ++ [Lexical.word wordData]
    | None => favorites (state w)
    end.
Proof.
  intros Hc [Hnd Hlen].
  set (x := Lexical.word wordData) in *.
  set (favs := favorites (state w)) in *.
  pose proof (toggleFavorite_currentWord w) as Hc'. rewrite Hc in Hc'.
  destruct (indexOf x favs) as [i|] eqn:Hi.
  - (* removed, then added again *)
    pose proof (toggleFavorite_remove w wordData i Hc Hi) as E1.
    destruct (favoritesChanged_state x (delete i favs) w) as [Hs _].
    fold x favs in E1. rewrite <- E1 in Hs.
    assert (favorites (state (WordlyApp.toggleFavorite w)) = delete i favs)
      as Hf by (by rewrite Hs).
    assert (x ∉ delete i favs) as Hgone.
    { apply occurrences_zero. rewrite (occurrences_delete x favs i Hi).
      pose proof (occurrences_NoDup x favs Hnd). lia. }
    assert (length (delete i favs) < 100)%nat as Hroom.
    { destruct (indexOf_Some x favs i Hi) as [Hl _].
      rewrite length_delete by eauto.
      apply lookup_lt_Some in Hl. lia. }
    rewrite (toggleFavorite_add _ wordData Hc');
      fold x; rewrite Hf; [|done..].
    by destruct (favoritesChanged_state x (delete i favs ++ [x])
                   (WordlyApp.toggleFavorite w)) as [-> _].
  - apply indexOf_None in Hi.
    destruct (decide (100 ≤ length favs)%nat) as [Hfull|Hroom].
    + (* rejected twice *)
      rewrite (toggleFavorite_reject w wordData Hc Hi Hfull).
      by rewrite (toggleFavorite_reject _ wordData).
    + (* added, then removed *)
      assert (length favs < 100)%nat as Hlt by lia.
      pose proof (toggleFavorite_add w wordData Hc Hi Hlt) as E1.
      fold x favs in E1.
      destruct (favoritesChanged_state x (favs ++ [x]) w) as [Hs _].
      rewrite <- E1 in Hs.
      assert (favorites (state (WordlyApp.toggleFavorite w)) = favs ++ [x])
        as Hf by (by rewrite Hs).
      rewrite (toggleFavorite_remove _ wordData (length favs) Hc');
        fold x; rewrite Hf; [|by apply indexOf_pushed].
      destruct (favoritesChanged_state x
                  (delete (length favs) (favs ++ [x]))
                  (WordlyApp.toggleFavorite w)) as [-> _]. simpl.
      by rewrite delete_middle, app_nil_r.
Qed.

(** The words other than the current one are as they were after a
    toggle. *)
Lemma toggleFavorite_others `{Platform} w wordData (y : list N) :
  currentWord (state w) = cw_entry wordData →
  y ≠ Lexical.word wordData →
  y ∈ favorites (state (WordlyApp.toggleFavorite w))
  ↔ y ∈ favorites (state w).
Proof.
  intros Hc Hy.
  destruct (indexOf (Lexical.word wordData) (favorites (state w)))
    as [i|] eqn:Hi.
  - rewrite (toggleFavorite_remove w wordData i Hc Hi).
    destruct (favoritesChanged_state (Lexical.word wordData)
                (delete i (favorites (state w))) w) as [-> _]. simpl.
    destruct (indexOf_Some _ _ _ Hi) as [Hl _].
    rewrite (delete_Permutation (favorites (state w)) i _ Hl) at 2.
    rewrite elem_of_cons. naive_solver.
  - apply indexOf_None in Hi.
    destruct (decide (100 ≤ length (favorites (state w)))%nat)
      as [Hfull|Hroom].
    + by rewrite (toggleFavorite_reject w wordData Hc Hi Hfull).
    + rewrite (toggleFavorite_add w wordData Hc Hi) by lia.
      destruct (favoritesChanged_state (Lexical.word wordData)
                  (favorites (state w) ++ [Lexical.word wordData]) w)
        as [-> _]. simpl.
      rewrite elem_of_app, list_elem_of_singleton. naive_solver.
Qed.

(** C1. With [x] the current word: if [x] is in the favorites,
    [toggleFavorite] removes it (its first occurrence) and saves the list;
    if it is absent and the list holds 100 items or more, nothing changes
    but the alert (list and store untouched); otherwise [x] is appended
    and the list saved. On a bounded list (no duplicates, at most 100
    items), which is what the program keeps, a word that is removed is
    gone, the other words stay, the list stays bounded, and toggling twice
    gives back a list of the same words. *)
Theorem toggleFavorite_behaviour `{Platform} (w : World) (wordData : Entry) :
  currentWord (state w) = cw_entry wordData →
  let x := Lexical.word wordData in
  let favs := favorites (state w) in
  let w' := WordlyApp.toggleFavorite w in
  (x ∈ favs →
     ∃ i, indexOf x favs = Some i
          ∧ favorites (state w') = delete i favs
          ∧ occurrences x (favorites (state w')) = (occurrences x favs - 1)%nat
          ∧ localStorage w'
            = (StorageManager.save STORAGE_KEYS.FAVORITES
                 (words_value (delete i favs)) (localStorage w)).2)
  ∧ (x ∉ favs → (100 ≤ length favs)%nat →
       w' = emit [Alert WordlyApp.capacityMessage] w
       ∧ favorites (state w') = favs
       ∧ localStorage w' = localStorage w)
  ∧ (x ∉ favs → (length favs < 100)%nat →
       favorites (state w') = favs ++ [x]
       ∧ localStorage w'
         = (StorageManager.save STORAGE_KEYS.FAVORITES
              (words_value (favs ++ [x])) (localStorage w)).2)
  ∧ ((occurrences x favs ≤ 1)%nat → (length favs ≤ 100)%nat →
       x ∈ favorites (state (WordlyApp.toggleFavorite w')) ↔ x ∈ favs)
  ∧ (bounded_list 100 favs →
       (x ∈ favs → x ∉ favorites (state w'))
       ∧ (∀ y, y ≠ x → y ∈ favorites (state w') ↔ y ∈ favs)
       ∧ bounded_list 100 (favorites (state w'))
       ∧ favorites (state (WordlyApp.toggleFavorite w')) ≡ₚ favs).
Proof.
  intros Hc x favs w'. subst x favs w'.
  split; [|split; [|split; [|split]]]; cycle 4.
  { intros Hb. split; [|split; [|split]].
    - intros Hin. destruct (indexOf_is_Some _ _ Hin) as [i Hi].
      rewrite (toggleFavorite_remove w wordData i Hc Hi).
      destruct (favoritesChanged_state (Lexical.word wordData)
                  (delete i (favorites (state w))) w) as [-> _]. simpl.
      apply occurrences_zero. rewrite (occurrences_delete _ _ i Hi).
      pose proof (occurrences_NoDup (Lexical.word wordData) _ (proj1 Hb)).
      lia.
    - intros y Hy. by apply (toggleFavorite_others w wordData).
    - by apply toggleFavorite_bounded.
    - rewrite (toggleFavorite_twice_list w wordData Hc Hb).
      destruct (indexOf _ _) as [i|] eqn:Hi; [|done].
      destruct (indexOf_Some _ _ _ Hi) as [Hl _].
      rewrite (delete_Permutation (favorites (state w)) i _ Hl) at 2.
      symmetry. apply Permutation_cons_append. }
  all: repeat split.
  - intros Hin. destruct (indexOf_is_Some _ _ Hin) as [i Hi].
    exists i. rewrite (toggleFavorite_remove w wordData i Hc Hi).
    destruct (favoritesChanged_state (Lexical.word wordData)
                (delete i (favorites (state w))) w) as (Hs & _ & Hst & _).
    rewrite Hs, Hst. simpl.
    by rewrite (occurrences_delete _ _ i Hi).
  - by apply (toggleFavorite_reject w wordData).
  - by rewrite (toggleFavorite_reject w wordData).
  - by rewrite (toggleFavorite_reject w wordData).
  - rewrite (toggleFavorite_add w wordData) by done.
    by destruct (favoritesChanged_state (Lexical.word wordData)
                   (favorites (state w) ++ [Lexical.word wordData]) w)
      as [-> _].
  - rewrite (toggleFavorite_add w wordData) by done.
    by destruct (favoritesChanged_state (Lexical.word wordData)
                   (favorites (state w) ++ [Lexical.word wordData]) w)
      as (_ & _ & -> & _).
  - by apply (toggleFavorite_twice w wordData).
  - by apply (toggleFavorite_twice w wordData).
Qed.

Lemma toggleFavorite_behaviour_witness :
  let w := Sample.world (js "tree") [js "leaf"; js "tree"] in
  let w' := WordlyApp.toggleFavorite (H := RefPlatform.ref) w in
  favorites (state w') = [js "leaf"]
  ∧ (js "tree" ∈ favorites
       (state (WordlyApp.toggleFavorite (H := RefPlatform.ref) w'))
     ↔ js "tree" ∈ [js "leaf"; js "tree"])
  ∧ favorites (state (WordlyApp.toggleFavorite (H := RefPlatform.ref) w'))
    ≡ₚ [js "leaf"; js "tree"].
Proof.
  intros w w'.
  destruct (toggleFavorite_behaviour (H := RefPlatform.ref) w
              (Sample.entry_of (js "tree")) eq_refl)
    as (Hrem & _ & _ & Htwice & Hbounded).
  split; [|split].
  - destruct Hrem as (i & Hi & Hf & _).
    + right. left.
    + injection Hi as <-. exact Hf.
  - apply Htwice; vm_compute; lia.
  - apply Hbounded. split; [|simpl; lia].
    apply (bool_decide_unpack _). vm_compute. reflexivity.
Defined.

(** ** The search operation *)

Lemma handleSearchError_in_error (e : JSError) (word : list N) (w : World) :
  in_error (kind_of e) (WordlyApp.handleSearchError e word w)
  ∧ state (WordlyApp.handleSearchError e word w) = state w
  ∧ trace (WordlyApp.handleSearchError e word w) = trace w
  ∧ localStorage (WordlyApp.handleSearchError e word w) = localStorage w
  ∧ wordInput (ui (WordlyApp.handleSearchError e word w)) = wordInput (ui w).
Proof.
  unfold WordlyApp.handleSearchError, kind_of, in_error.
  repeat case_decide; done.
Qed.

Lemma searchWord_blank `{Platform} net word w :
  blank word →
  WordlyApp.searchWord net word w
  = set_ui (UIManager.showError (js "Invalid Input")
              (js "Please enter a word to look up.") (ui w)) w.
Proof.
  intros Hb. unfold WordlyApp.searchWord.
  by rewrite blank_nil_or, bool_decide_eq_true_2.
Qed.

Lemma submit_blank `{Platform} net text w :
  blank text →
  WordlyApp.submit net text w
  = set_ui (UIManager.set_wordInput text (ui w)) w.
Proof.
  intros Hb. unfold WordlyApp.submit, WordlyApp.onSearchFormSubmit. simpl.
  apply trim_nil_iff in Hb. by rewrite Hb.
Qed.

Lemma fetchWord_events `{Platform} net word :
  lookups (DictionaryAPI.fetchWord net word).1 = [].
Proof.
  unfold DictionaryAPI.fetchWord.
  destruct (encodeURIComponent word); [|done].
  destruct (settles_before _ _); [|done].
  by destruct (settlement _).
Qed.

Lemma fetchWord_requests `{Platform} net word :
  requests (DictionaryAPI.fetchWord net word).1
  = from_option (λ u, [API_CONFIG.BASE_URL ++ js "/" ++ u]) []
      (encodeURIComponent word).
Proof.
  unfold DictionaryAPI.fetchWord.
  destruct (encodeURIComponent word); [|done].
  destruct (settles_before _ _); [|done].
  by destruct (settlement _).
Qed.

Lemma searchWord_trace `{Platform} net word w :
  ¬ blank word →
  trace (WordlyApp.searchWord net word w)
  = trace w ++ Lookup (toLowerCase (trim word))
               :: (DictionaryAPI.fetchWord net (toLowerCase (trim word))).1.
Proof.
  intros Hnb. search_accepted.
  destruct (DictionaryAPI.fetchWord net (toLowerCase (trim word))).2
    as [[wordData|]|e]; [done|..];
    match goal with
    | |- context [WordlyApp.handleSearchError ?e ?x ?w2] =>
        by destruct (handleSearchError_in_error e x w2) as (_ & _ & -> & _)
    end.
Qed.

Lemma searchWord_failure `{Platform} net word w e :
  ¬ blank word →
  (DictionaryAPI.fetchWord net (toLowerCase (trim word))).2 = Throw e →
  in_error (kind_of e) (WordlyApp.searchWord net word w)
  ∧ state (WordlyApp.searchWord net word w) = state w
  ∧ localStorage (WordlyApp.searchWord net word w) = localStorage w
  ∧ wordInput (ui (WordlyApp.searchWord net word w))
    = strip_newlines (toLowerCase (trim word)).
Proof.
  intros Hnb Hr. search_accepted. rewrite Hr.
  match goal with
  | |- context [WordlyApp.handleSearchError ?e ?x ?w2] =>
      destruct (handleSearchError_in_error e x w2) as (He & -> & _ & -> & ->)
  end.
  done.
Qed.

(** C7 (as amended). For a word that is empty or all white space,
    [searchWord] shows the Invalid Input error and calls nothing; the
    search form's [submit] listener does not call [searchWord] at all: no
    request goes out and, the text of the field apart, the page stays as it
    was. *)
Theorem blank_input `{Platform} (net : Network) (W : list N) (w : World) :
  blank W →
  (in_error InvalidInput (WordlyApp.searchWord net W w)
   ∧ trace (WordlyApp.searchWord net W w) = trace w
   ∧ state (WordlyApp.searchWord net W w) = state w)
  ∧ (WordlyApp.submit net W w = set_ui (UIManager.set_wordInput W (ui w)) w
     ∧ trace (WordlyApp.submit net W w) = trace w
     ∧ errorContainer_hidden (ui (WordlyApp.submit net W w))
       = errorContainer_hidden (ui w)).
Proof.
  intros Hb. rewrite searchWord_blank, submit_blank by done. done.
Qed.

Lemma blank_input_witness :
  in_error InvalidInput
    (WordlyApp.searchWord (H := RefPlatform.ref) (Sample.always Sample.silent)
       [32; 9; 160] (Sample.world (js "tree") []))
  ∧ trace (WordlyApp.submit (H := RefPlatform.ref)
             (Sample.always Sample.silent) [32; 9; 160]
             (Sample.world (js "tree") []))
    = [].
Proof.
  destruct (blank_input (H := RefPlatform.ref) (Sample.always Sample.silent)
              [32; 9; 160] (Sample.world (js "tree") []))
    as [(He & _) (_ & Ht & _)]; [reflexivity|].
  exact (conj He Ht).
Defined.

(** C7 (as stated) fails for the form: submitting three spaces while a
    word is on display leaves it on display, with no error panel. *)
Lemma submit_blank_no_error :
  blank (js "   ")
  ∧ ¬ in_error InvalidInput
        (WordlyApp.submit (H := RefPlatform.ref) (Sample.always Sample.silent)
           (js "   ") (Sample.world (js "tree") [])).
Proof.
  split; [reflexivity|]. intros [Hhidden _].
  vm_compute in Hhidden. discriminate.
Qed.




(** ** What reaches the lookup client *)

Lemma trimStart_fix (s : list N) :
  match s with [] => True | c :: _ => isWhiteSpace c = false end →
  trimStart s = s.
Proof. destruct s as [|c r]; [done|]. simpl. by intros ->. Qed.

(** [trimStart] removes a blank prefix. *)
Lemma trimStart_split (s : list N) :
  ∃ pre, blank pre ∧ s = pre ++ trimStart s.
Proof.
  induction s as [|c r (pre & Hb & IH)]; simpl.
  - by exists [].
  - destruct (isWhiteSpace c) eqn:E.
    + exists (c :: pre). split; [|by rewrite IH at 1].
      unfold blank in *. simpl. by rewrite E.
    + by exists [].
Qed.

(** [trimEnd] removes a blank suffix. *)
Lemma trimEnd_split (s : list N) :
  ∃ suf, blank suf ∧ s = trimEnd s ++ suf.
Proof.
  destruct (trimStart_split (reverse s)) as (pre & Hb & E).
  exists (reverse pre). split; [by apply blank_reverse|].
  apply (f_equal reverse) in E.
  by rewrite reverse_involutive, reverse_app in E.
Qed.

Lemma trimEnd_keeps_head (c : N) (r : list N) :
  isWhiteSpace c = false → ∃ r', trimEnd (c :: r) = c :: r'.
Proof.
  intros Hc. destruct (trimEnd_split (c :: r)) as (suf & Hb & E).
  destruct (trimEnd (c :: r)) as [|c' r'].
  - simpl in E. subst suf. unfold blank in Hb. simpl in Hb.
    rewrite Hc in Hb. discriminate.
  - injection E as -> _. eauto.
Qed.

Lemma trim_trimStart (s : list N) : trimStart (trim s) = trim s.
Proof.
  unfold trim. pose proof (trimStart_head s) as Hh.
  destruct (trimStart s) as [|c r]; [done|].
  destruct (trimEnd_keeps_head c r Hh) as [r' ->].
  simpl. by rewrite Hh.
Qed.

Lemma trimEnd_idempotent (s : list N) : trimEnd (trimEnd s) = trimEnd s.
Proof.
  unfold trimEnd. rewrite reverse_involutive. f_equal.
  apply trimStart_fix, trimStart_head.
Qed.

(** The result of [trim] is trimmed. *)
Lemma trim_trimmed (s : list N) : trimmed (trim s).
Proof.
  unfold trimmed. unfold trim at 1. rewrite trim_trimStart.
  unfold trim. apply trimEnd_idempotent.
Qed.

(** C10. For a word the search operation accepts (one that is not blank),
    the lookup client is called once, with the trimmed and then lower-cased
    word: the events of the search are those of [fetchWord] on that word,
    the one request that goes out is for that word, encoded, and the
    search ends as [fetchWord] on that word does. That word is not empty,
    has no white space at its ends and is its own lower-casing whenever
    lower-casing behaves as it should. *)
Theorem searchWord_passes_clean_word `{Platform}
    (net : Network) (word : list N) (w : World) :
  ¬ blank word →
  let cleanWord := toLowerCase (trim word) in
  let r := DictionaryAPI.fetchWord net cleanWord in
  let w' := WordlyApp.searchWord net word w in
  lookups (trace w') = lookups (trace w) ++ [cleanWord]
  ∧ trim word ≠ []
  ∧ (LowerCaseLaws →
     cleanWord ≠ [] ∧ trimmed cleanWord ∧ toLowerCase cleanWord = cleanWord)
  ∧ trace w' = trace w ++ Lookup cleanWord :: r.1
  ∧ requests (trace w')
    = requests (trace w)
      ++ from_option (λ u, [API_CONFIG.BASE_URL ++ js "/" ++ u]) []
           (encodeURIComponent cleanWord)
  ∧ (∀ e, r.2 = Throw e → in_error (kind_of e) w')
  ∧ (∀ wordData, r.2 = Return (Some wordData) →
       currentWord (state w') = cw_entry wordData).
Proof.
  intros Hnb cleanWord r w'.
  assert (trim word ≠ []) as Hne by (by rewrite trim_nil_iff).
  pose proof (searchWord_trace net word w Hnb) as Ht.
  fold cleanWord r w' in Ht.
  split; [|split; [done|split; [|split; [done|split; [|split]]]]].
  - rewrite Ht. unfold lookups at 1. rewrite omap_app. simpl.
    fold (lookups (trace w)). fold (lookups r.1).
    subst r. by rewrite fetchWord_events.
  - intros [Hn Hi Htr]. subst cleanWord. repeat split.
    + by apply Hn.
    + apply Htr, trim_trimmed.
    + apply Hi.
  - rewrite Ht. unfold requests at 1. rewrite omap_app. simpl.
    fold (requests (trace w)). fold (requests r.1).
    subst r. by rewrite fetchWord_requests.
  - intros e Hr. by apply (searchWord_failure net word w e Hnb).
  - intros wordData Hr. subst w'.
    by rewrite (searchWord_success net word w wordData Hnb Hr).
Qed.

(** The reference platform lower-cases as it should. *)
Lemma ref_isWhiteSpace_lower (c : N) :
  isWhiteSpace (RefPlatform.lower c) = isWhiteSpace c.
Proof.
  unfold RefPlatform.lower.
  destruct (N.leb_spec 65 c); simpl; [|done].
  destruct (N.leb_spec c 90); simpl; [|done].
  unfold isWhiteSpace.
  repeat match goal with
         | |- context [N.eqb ?a ?b] =>
             destruct (N.eqb_spec a b); [lia|]
         | |- context [N.leb ?a ?b] =>
             destruct (N.leb_spec a b); [try lia|try lia]
         end; reflexivity.
Qed.

Lemma ref_trimStart_lower (s : list N) :
  trimStart (RefPlatform.lower <$> s) = RefPlatform.lower <$> trimStart s.
Proof.
  induction s as [|c r IH]; [done|].
  simpl. rewrite ref_isWhiteSpace_lower.
  destruct (isWhiteSpace c); [done|reflexivity].
Qed.

Lemma ref_trim_lower (s : list N) :
  trim (RefPlatform.lower <$> s) = RefPlatform.lower <$> trim s.
Proof.
  unfold trim, trimEnd.
  by rewrite ref_trimStart_lower, <- fmap_reverse, ref_trimStart_lower,
       fmap_reverse.
Qed.

Lemma ref_lower_laws : LowerCaseLaws (H := RefPlatform.ref).
Proof.
  split; simpl.
  - intros [|c r]; done.
  - intros s. rewrite <- list_fmap_compose. apply list_fmap_ext.
    intros _ c _. simpl. unfold RefPlatform.lower.
    destruct ((65 <=? c) && (c <=? 90)) eqn:E; [|by rewrite E].
    apply andb_true_iff in E as [H1%N.leb_le H2%N.leb_le].
    assert ((c + 32 <=? 90) = false) as -> by (apply N.leb_gt; lia).
    by rewrite andb_false_r.
  - intros s Ht. unfold trimmed in *. by rewrite ref_trim_lower, Ht.
Qed.

Lemma searchWord_passes_clean_word_witness :
  let w := WordlyApp.searchWord (H := RefPlatform.ref)
             (Sample.always
                (Sample.answers 80 200 (Some [Sample.entry_of (js "tree")])))
             (js "  TrEe ") (Sample.world (js "leaf") []) in
  lookups (trace w) = [js "tree"]
  ∧ trimmed (js "tree")
  ∧ requests (trace w) = [API_CONFIG.BASE_URL ++ js "/tree"].
Proof.
  intros w.
  destruct (searchWord_passes_clean_word (H := RefPlatform.ref)
              (Sample.always
                 (Sample.answers 80 200 (Some [Sample.entry_of (js "tree")])))
              (js "  TrEe ") (Sample.world (js "leaf") []))
    as (Hl & _ & Hlaws & _ & Hq & _).
  - vm_compute. discriminate.
  - split; [exact Hl|].
    split; [exact (proj1 (proj2 (Hlaws ref_lower_laws)))|].
    exact Hq.
Defined.

(** ** The program on concrete inputs *)

Module Examples.
Import RefPlatform Sample.

Example trim_spaces : trim (js "  ice cream ") = js "ice cream".
Proof. reflexivity. Qed.

Example trim_no_break_space : trim [160; 8195; 97; 12288; 10] = [97].
Proof. reflexivity. Qed.

Example synonyms_of_greeting :
  DictionaryAPI.collectSynonyms (meanings greeting)
  = [js "greetings"; js "hi"; js "hey"; js "salutation"].
Proof. reflexivity. Qed.

Example antonyms_of_greeting :
  DictionaryAPI.collectAntonyms (meanings greeting)
  = [js "goodbye"; js "bye"].
Proof. reflexivity. Qed.

Example fetch_found :
  DictionaryAPI.fetchWord
    (Sample.always (Sample.answers 80 200 (Some [greeting]))) (js "hello")
  = ([Request (js "https://api.dictionaryapi.dev/api/v2/entries/en/hello")],
     Return (Some greeting)).
Proof. reflexivity. Qed.

Example fetch_404 :
  (DictionaryAPI.fetchWord
     (Sample.always (Sample.answers 80 404 None)) (js "zzzzz")).2
  = Throw (Error (js "WORD_NOT_FOUND")).
Proof. reflexivity. Qed.

Example fetch_unreachable :
  (DictionaryAPI.fetchWord (Sample.always Sample.unreachable) (js "hello")).2
  = Throw (Error (js "NETWORK_ERROR")).
Proof. reflexivity. Qed.

Example fetch_lone_surrogate :
  DictionaryAPI.fetchWord (Sample.always Sample.unreachable) [55357]
  = ([], Throw (Error (js "NETWORK_ERROR"))).
Proof. reflexivity. Qed.

(** The scenario of spec section 8: looking up "hello" from a fresh
    application leaves the history ["hello"] and shows the entry. *)
Example lookup_hello :
  let w0 := {| state := {| currentWord := cw_null; searchHistory := [];
                           favorites := [] |};
               ui := UIManager.showLoading Sample.page;
               activeSidebar := None;
               localStorage := Sample.roomy_store; trace := [] |} in
  let w := WordlyApp.searchWord
             (Sample.always (Sample.answers 80 200 (Some [greeting])))
             (js "Hello ") w0 in
  searchHistory (state w) = [js "hello"]
  ∧ currentWord (state w) = cw_entry greeting
  ∧ wordDisplay_hidden (ui w) = false
  ∧ wordTitle (ui w) = js "Hello"
  ∧ StorageManager.load STORAGE_KEYS.SEARCH_HISTORY JNull (localStorage w)
    = words_value [js "hello"].
Proof. vm_compute. repeat split; reflexivity. Qed.

(** The scenario of spec section 8: a 404 for "zzzzz" shows Word Not
    Found and leaves the history alone. *)
Example lookup_zzzzz :
  let w0 := Sample.world (js "tree") [] in
  let w := WordlyApp.searchWord
             (Sample.always (Sample.answers 80 404 None)) (js "zzzzz") w0 in
  in_error NotFound w
  ∧ searchHistory (state w) = searchHistory (state w0)
  ∧ errorMessage (ui w) = WordlyApp.notFoundMessage (js "zzzzz").
Proof. vm_compute. repeat split; reflexivity. Qed.

(** A status of 500 ends on the Network Error panel. *)
Example lookup_500 :
  in_error NetworkError
    (WordlyApp.searchWord (Sample.always (Sample.answers 80 500 None))
       (js "tree") (Sample.world (js "leaf") [])).
Proof. vm_compute. repeat split; reflexivity. Qed.

(** An empty array ends on the Unexpected Error panel, the current word
    being [undefined] from then on. *)
Example lookup_empty_array :
  let w := WordlyApp.searchWord
             (Sample.always (Sample.answers 80 200 (Some [])))
             (js "tree") (Sample.world (js "leaf") []) in
  in_error Unknown w ∧ currentWord (state w) = cw_undefined.
Proof. vm_compute. repeat split; reflexivity. Qed.

Example favorites_full :
  let w := Sample.world (js "tree") Sample.hundred in
  WordlyApp.toggleFavorite w = emit [Alert WordlyApp.capacityMessage] w.
Proof. vm_compute. reflexivity. Qed.

Example favorites_toggle :
  favorites (state (WordlyApp.toggleFavorite
                      (Sample.world (js "tree") [js "leaf"])))
  = [js "leaf"; js "tree"].
Proof. reflexivity. Qed.

End Examples.

(** * Further properties of the program *)

(** ** The storage adapter: keys do not interfere *)

Lemma load_same_item `{Platform} key d st st' :
  getItem key st' = getItem key st →
  StorageManager.load key d st' = StorageManager.load key d st.
Proof. intros E. unfold StorageManager.load. by rewrite E. Qed.

Lemma load_other_key `{Platform} key key' v d st :
  key ≠ key' →
  StorageManager.load key' d (StorageManager.save key v st).2
  = StorageManager.load key' d st.
Proof. intros Hne. by apply load_same_item, save_other_key. Qed.

(** X1. [save] changes what [load] returns for its own key only, and
    nothing at all when the store refuses the write. *)
Theorem save_touches_one_key `{Platform}
    (key key' : list N) (v d : JSON) (st : Storage) :
  (key ≠ key' →
   StorageManager.load key' d (StorageManager.save key v st).2
   = StorageManager.load key' d st)
  ∧ ((StorageManager.save key v st).1 = false →
     (StorageManager.save key v st).2 = st).
Proof.
  split; [apply load_other_key|].
  destruct (StorageManager.save key v st) as [b st'] eqn:E. simpl.
  intros ->. by apply save_failure in E.
Qed.

Lemma save_touches_one_key_witness :
  StorageManager.load (H := RefPlatform.ref) STORAGE_KEYS.THEME (JBool false)
    (StorageManager.save (H := RefPlatform.ref) STORAGE_KEYS.FAVORITES
       (words_value [js "tree"]) Sample.roomy_store).2
  = JBool false
  ∧ (StorageManager.save (H := RefPlatform.ref) STORAGE_KEYS.FAVORITES
       (words_value [js "tree"]) Sample.full_store).2
    = Sample.full_store.
Proof.
  destruct (save_touches_one_key (H := RefPlatform.ref)
              STORAGE_KEYS.FAVORITES STORAGE_KEYS.THEME
              (words_value [js "tree"]) (JBool false) Sample.roomy_store)
    as [Hother _].
  destruct (save_touches_one_key (H := RefPlatform.ref)
              STORAGE_KEYS.FAVORITES STORAGE_KEYS.THEME
              (words_value [js "tree"]) (JBool false) Sample.full_store)
    as [_ Hfail].
  split.
  - rewrite Hother; [reflexivity | vm_compute; discriminate].
  - apply Hfail. vm_compute. reflexivity.
Defined.

Lemma remove_item key st :
  getItem key (StorageManager.remove key st).2 = None.
Proof. apply lookup_delete_eq. Qed.

Lemma remove_other_item key key' st :
  key ≠ key' →
  getItem key' (StorageManager.remove key st).2 = getItem key' st.
Proof. intros Hne. by apply lookup_delete_ne. Qed.

(** X2. After [remove(key)], [load] returns the default for that key,
    whatever was saved before, and what it returned before for every
    other key. *)
Theorem remove_then_load `{Platform}
    (key key' : list N) (v d : JSON) (st : Storage) :
  StorageManager.load key d (StorageManager.remove key st).2 = d
  ∧ StorageManager.load key d
      (StorageManager.remove key (StorageManager.save key v st).2).2 = d
  ∧ (key ≠ key' →
     StorageManager.load key' d (StorageManager.remove key st).2
     = StorageManager.load key' d st).
Proof.
  assert (∀ st0, StorageManager.load key d (StorageManager.remove key st0).2
                 = d) as Hgone.
  { intros st0. unfold StorageManager.load. by rewrite remove_item. }
  repeat split; [apply Hgone..|].
  intros Hne. by apply load_same_item, remove_other_item.
Qed.

Lemma remove_then_load_witness :
  StorageManager.load (H := RefPlatform.ref) STORAGE_KEYS.FAVORITES JNull
    (StorageManager.remove STORAGE_KEYS.THEME
       (StorageManager.save (H := RefPlatform.ref) STORAGE_KEYS.FAVORITES
          (words_value [js "tree"]) Sample.roomy_store).2).2
  = words_value [js "tree"].
Proof.
  destruct (remove_then_load (H := RefPlatform.ref)
              STORAGE_KEYS.THEME STORAGE_KEYS.FAVORITES JNull JNull
              (StorageManager.save (H := RefPlatform.ref)
                 STORAGE_KEYS.FAVORITES (words_value [js "tree"])
                 Sample.roomy_store).2)
    as (_ & _ & Hother).
  rewrite Hother; [vm_compute; reflexivity | vm_compute; discriminate].
Defined.

(** X3. [isAvailable] answers whether the store takes the probe; it
    leaves the store as it was, except that a value kept under the probe's
    own key is gone when the answer is [true]. *)
Theorem isAvailable_leaves_store (st : Storage) :
  let test := js "__localStorage_test__" in
  (StorageManager.isAvailable st).1
  = bool_decide (is_Some (setItem test test st))
  ∧ (StorageManager.isAvailable st).2
    = (if (StorageManager.isAvailable st).1 then removeItem test st else st)
  ∧ ∀ key, key ≠ test →
      getItem key (StorageManager.isAvailable st).2 = getItem key st.
Proof.
  intros test. unfold StorageManager.isAvailable. fold test.
  unfold setItem.
  destruct (usage (<[test:=test]> (items st)) <=? quota st); simpl.
  - repeat split.
    + unfold removeItem. simpl. by rewrite delete_insert_eq.
    + intros key Hne. unfold getItem, removeItem. simpl.
      by rewrite lookup_delete_ne, lookup_insert_ne.
  - repeat split.
Qed.

Lemma isAvailable_leaves_store_witness :
  getItem STORAGE_KEYS.FAVORITES
    (StorageManager.isAvailable
       (StorageManager.save (H := RefPlatform.ref) STORAGE_KEYS.FAVORITES
          (words_value [js "tree"]) Sample.roomy_store).2).2
  = Some (RefPlatform.stringify (words_value [js "tree"])).
Proof.
  destruct (isAvailable_leaves_store
              (StorageManager.save (H := RefPlatform.ref)
                 STORAGE_KEYS.FAVORITES (words_value [js "tree"])
                 Sample.roomy_store).2) as (_ & _ & Hother).
  rewrite Hother; [vm_compute; reflexivity | vm_compute; discriminate].
Defined.

(** ** Debouncing *)

Section Debounce.
Context {A : Type} (wait : N).

Lemma called_with_app (l1 l2 : list (Utils.DebounceEvent A)) :
  Utils.called_with (l1 ++ l2) = Utils.called_with l1 ++ Utils.called_with l2.
Proof. apply omap_app. Qed.

Lemma debounce_inv_step (evs : list (Utils.DebounceEvent A)) st ev :
  Utils.debounce_inv wait evs st →
  Utils.debounce_inv wait (evs ++ [ev]) (Utils.debounce_step wait st ev).
Proof.
  intros (Harmed & Hdone & Hsub). destruct st as [armed done]. simpl in *.
  assert (∀ t' a', (t', a') ∈ done →
            ∃ l1 t0 l2 l3,
              evs ++ [ev]
              = l1 ++ Utils.called t0 a' :: l2 ++ Utils.timers_run t' :: l3
              ∧ Utils.called_with l2 = [] ∧ t0 + wait ≤ t') as Hkept.
  { intros t' a' Hin.
    destruct (Hdone t' a' Hin) as (l1 & t0 & l2 & l3 & -> & Hq & Hw).
    exists l1, t0, l2, (l3 ++ [ev]). split; [|done].
    by repeat first [rewrite <- app_assoc | rewrite <- app_comm_cons]. }
  destruct ev as [t args|t]; simpl.
  - (* a call re-arms the timer *)
    split; [|split; [done|]].
    + intros due a [= <- <-]. by exists evs, t, [].
    + rewrite called_with_app. simpl.
      apply sublist_app; [|done].
      etrans; [|exact Hsub]. by apply sublist_inserts_r.
  - (* the event loop runs the timer if it is due *)
    destruct armed as [[due a]|]; simpl.
    + destruct (N.leb_spec due t) as [Hdue|Hearly]; simpl.
      * split; [done|split].
        -- intros t' a' [Hin|Hnew]%elem_of_app; [by apply Hkept|].
           apply list_elem_of_singleton in Hnew as [= -> ->].
           destruct (Harmed due a eq_refl) as (l1 & t0 & l2 & -> & Hq & ->).
           exists l1, t0, l2, []. split; [|done].
           by repeat first [rewrite <- app_assoc | rewrite <- app_comm_cons].
        -- cbn [fst snd from_option]. rewrite called_with_app, fmap_app.
           change (Utils.called_with [Utils.timers_run t]) with (@nil A).
           by rewrite !app_nil_r.
      * split; [|split; [done|]].
        -- intros due' a' [= <- <-].
           destruct (Harmed due a eq_refl) as (l1 & t0 & l2 & -> & Hq & ->).
           exists l1, t0, (l2 ++ [Utils.timers_run t]).
           rewrite called_with_app, Hq. split; [|done].
           by repeat first [rewrite <- app_assoc | rewrite <- app_comm_cons].
        -- cbn [fst snd from_option] in *. rewrite called_with_app.
           change (Utils.called_with [Utils.timers_run t]) with (@nil A).
           by rewrite app_nil_r.
    + split; [done|split; [done|]]. cbn [fst snd from_option] in *.
      rewrite called_with_app.
      change (Utils.called_with [Utils.timers_run t]) with (@nil A).
      by rewrite !app_nil_r in *.
Qed.

Lemma debounce_inv_run (evs : list (Utils.DebounceEvent A)) :
  Utils.debounce_inv wait evs
    (foldl (Utils.debounce_step wait) (None, []) evs).
Proof.
  induction evs as [|ev evs IH] using rev_ind.
  - split; [done|split]; [intros ? ? Hin; by apply elem_of_nil in Hin|done].
  - rewrite foldl_app. simpl. by apply debounce_inv_step.
Qed.


(** X5. [func] runs at most once per call of the debounced function, and
    in the order of the calls: the arguments it receives are a
    subsequence of the arguments of the calls. *)
Theorem debounce_at_most_once (evs : list (Utils.DebounceEvent A)) :
  (Utils.debounce wait evs).*2 `sublist_of` Utils.called_with evs
  ∧ (length (Utils.debounce wait evs) ≤ length (Utils.called_with evs))%nat.
Proof.
  destruct (debounce_inv_run evs) as (_ & _ & Hsub).
  assert ((Utils.debounce wait evs).*2 `sublist_of` Utils.called_with evs)
    as Hs.
  { etrans; [|exact Hsub]. apply sublist_inserts_r. done. }
  split; [done|].
  apply sublist_length in Hs. by rewrite length_fmap in Hs.
Qed.

End Debounce.


(** ** The lookup client, whatever the network does *)

Lemma catch_cases (e : JSError) :
  DictionaryAPI.catch e = Throw (Error (js "TIMEOUT"))
  ∨ (DictionaryAPI.catch e = Throw e ∧ message e = js "WORD_NOT_FOUND")
  ∨ DictionaryAPI.catch e = Throw (Error (js "NETWORK_ERROR")).
Proof.
  unfold DictionaryAPI.catch. repeat case_decide; eauto.
Qed.

Lemma on_response_cases (r : Response) :
  (∃ data, ok r = true ∧ json_body r = Some data
           ∧ DictionaryAPI.on_response r = Return (head data))
  ∨ (status r = 404
     ∧ DictionaryAPI.on_response r = Throw (Error (js "WORD_NOT_FOUND")))
  ∨ DictionaryAPI.on_response r = Throw (Error (js "NETWORK_ERROR")).
Proof.
  unfold DictionaryAPI.on_response.
  destruct (ok r) eqn:Hok; simpl.
  - destruct (json_body r) as [data|]; [left; eauto | by right; right].
  - destruct (N.eqb_spec (status r) 404); [right; left | right; right]; done.
Qed.

(** X6. [fetchWord] throws nothing but [TIMEOUT], [WORD_NOT_FOUND] and
    [NETWORK_ERROR]: no answer of the network makes it fail with the
    Unknown kind. *)
Theorem fetchWord_throws_three `{Platform} (net : Network) (word : list N) :
  match (DictionaryAPI.fetchWord net word).2 with
  | Throw e =>
      e = Error (js "TIMEOUT") ∨ e = Error (js "WORD_NOT_FOUND")
      ∨ e = Error (js "NETWORK_ERROR")
  | Return _ => True
  end
  ∧ ¬ fails_with Unknown (DictionaryAPI.fetchWord net word).2.
Proof.
  assert (match (DictionaryAPI.fetchWord net word).2 with
          | Throw e =>
              e = Error (js "TIMEOUT") ∨ e = Error (js "WORD_NOT_FOUND")
              ∨ e = Error (js "NETWORK_ERROR")
          | Return _ => True
          end) as Hthree.
  { unfold DictionaryAPI.fetchWord.
    destruct (encodeURIComponent word) as [u|]; simpl; [|by right; right].
    destruct (settles_before _ _); simpl; [|by left].
    destruct (settlement _) as [r|]; simpl; [|by right; right].
    destruct (on_response_cases r) as [(data & _ & _ & ->)|[[_ ->]| ->]];
      [done | by right; left | by right; right]. }
  split; [done|].
  destruct (DictionaryAPI.fetchWord net word).2 as [|e]; simpl; [tauto|].
  destruct Hthree as [-> |[-> | ->]]; vm_compute; discriminate.
Qed.

(** X7. One call of [fetchWord] issues at most one request (none when
    the word cannot be encoded), to the entries URL followed by the encoded
    word; it cancels that request, and only that one, exactly when it fails
    with [TIMEOUT]. *)
Theorem fetchWord_one_request `{Platform} (net : Network) (word : list N) :
  let r := DictionaryAPI.fetchWord net word in
  requests r.1
  = from_option (λ u, [API_CONFIG.BASE_URL ++ js "/" ++ u]) []
      (encodeURIComponent word)
  ∧ (aborts r.1 = [] ∨ aborts r.1 = requests r.1)
  ∧ (aborts r.1 ≠ [] ↔ r.2 = Throw (Error (js "TIMEOUT")))
  ∧ lookups r.1 = [].
Proof.
  simpl. unfold DictionaryAPI.fetchWord.
  destruct (encodeURIComponent word) as [u|]; simpl.
  - destruct (settles_before _ _); simpl.
    + destruct (settlement _) as [r|]; simpl.
      * repeat split; eauto; try done.
        intros E.
        destruct (on_response_cases r) as [(data & _ & _ & Hr)|[[_ Hr]|Hr]];
          rewrite Hr in E; discriminate.
      * repeat split; eauto; done.
    + repeat split; eauto; done.
  - repeat split; eauto; done.
Qed.


(** ** Pronunciation audio *)

Lemma Array_find_Some {A} (f : A → bool) (l : list A) (x : A) :
  DictionaryAPI.Array_find f l = Some x
  ↔ ∃ l1 l2, l = l1 ++ x :: l2 ∧ f x = true ∧ Forall (λ y, f y = false) l1.
Proof.
  split.
  - induction l as [|y l IH]; simpl; [done|].
    destruct (f y) eqn:Hy.
    + intros [= ->]. by exists [], l.
    + intros (l1 & l2 & -> & Hx & Hl1)%IH.
      exists (y :: l1), l2. repeat split; [done|]. by constructor.
  - intros (l1 & l2 & -> & Hx & Hl1).
    induction Hl1 as [|y l1 Hy _ IH]; simpl; [by rewrite Hx|by rewrite Hy].
Qed.

Lemma Array_find_None {A} (f : A → bool) (l : list A) :
  DictionaryAPI.Array_find f l = None ↔ Forall (λ y, f y = false) l.
Proof.
  induction l as [|y l IH]; simpl; [by split|].
  destruct (f y) eqn:Hy.
  - split; [done|]. intros Hall. apply Forall_cons in Hall as [Hf _].
    congruence.
  - rewrite IH. split; [by constructor|]. by intros [_ ?]%Forall_cons.
Qed.

Lemma has_audio_true (p : Phonetic) :
  DictionaryAPI.has_audio p = true ↔ ∃ a, audio p = Some a ∧ ¬ blank a.
Proof.
  unfold DictionaryAPI.has_audio. destruct (audio p) as [a|].
  - rewrite andb_true_iff, Nat.ltb_lt. split.
    + intros [_ Hlen]. exists a. split; [done|].
      intros E%trim_nil_iff. rewrite E in Hlen. simpl in Hlen. lia.
    + intros (a' & [= <-] & Hnb). split.
      * destruct a; [|done]. by destruct Hnb.
      * rewrite <- trim_nil_iff in Hnb.
        destruct (trim a); [done|simpl; lia].
  - split; [done|]. by intros (a & ? & _).
Qed.

Lemma extractAudioUrl_missing (l : list Phonetic) :
  DictionaryAPI.extractAudioUrl (Some l) = None
  ↔ Forall (λ q, DictionaryAPI.has_audio q = false) l.
Proof.
  unfold DictionaryAPI.extractAudioUrl.
  destruct (DictionaryAPI.Array_find _ l) as [p|] eqn:E.
  - apply Array_find_Some in E as (l1 & l2 & -> & Hf & Hl1).
    pose proof Hf as Hf'. apply has_audio_true in Hf as (a & Ha & _).
    rewrite Ha. split; [done|].
    intros Hall. apply Forall_app in Hall as [_ Hall].
    apply Forall_cons in Hall as [Hp _]. congruence.
  - split; [|done]. intros _. by apply Array_find_None.
Qed.

Lemma extractAudioUrl_not_blank (l : list Phonetic) (url : list N) :
  DictionaryAPI.extractAudioUrl (Some l) = Some url → ¬ blank url.
Proof.
  unfold DictionaryAPI.extractAudioUrl.
  destruct (DictionaryAPI.Array_find _ l) as [p|] eqn:E; [|done].
  apply Array_find_Some in E as (_ & _ & _ & Hf & _).
  apply has_audio_true in Hf as (a & Ha & Hnb). rewrite Ha.
  by intros [= <-].
Qed.

(** X9. [extractAudioUrl] returns the audio of the first variant whose
    audio is not blank, and [null] exactly when no variant has one. *)
Theorem extractAudioUrl_first (l : list Phonetic) (url : list N) :
  (DictionaryAPI.extractAudioUrl (Some l) = Some url
   ↔ ∃ l1 p l2,
       l = l1 ++ p :: l2 ∧ audio p = Some url ∧ ¬ blank url
       ∧ Forall (λ q, DictionaryAPI.has_audio q = false) l1)
  ∧ (DictionaryAPI.extractAudioUrl (Some l) = None
     ↔ Forall (λ q, DictionaryAPI.has_audio q = false) l)
  ∧ DictionaryAPI.extractAudioUrl None = None.
Proof.
  unfold DictionaryAPI.extractAudioUrl. repeat split.
  - destruct (DictionaryAPI.Array_find _ l) as [p|] eqn:E; [|done].
    intros Hp. apply Array_find_Some in E as (l1 & l2 & -> & Hf & Hl1).
    apply has_audio_true in Hf as (a & Ha & Hnb).
    rewrite Ha in Hp. injection Hp as ->. by exists l1, p, l2.
  - intros (l1 & p & l2 & -> & Ha & Hnb & Hl1).
    assert (DictionaryAPI.Array_find DictionaryAPI.has_audio
              (l1 ++ p :: l2) = Some p) as ->; [|done].
    apply Array_find_Some. exists l1, l2. repeat split; [|done].
    apply has_audio_true. eauto.
  - destruct (DictionaryAPI.Array_find _ l) as [p|] eqn:E.
    + intros Hp. apply Array_find_Some in E as (l1 & l2 & -> & Hf & Hl1).
      apply has_audio_true in Hf as (a & Ha & _). congruence.
    + intros _. by apply Array_find_None.
  - intros Hall. apply Array_find_None in Hall. by rewrite Hall.
Qed.

(** X10. After [renderWord] has written the header, the audio button is
    hidden exactly when the entry has no variant with an audio that is not
    blank; when it is shown, the audio element plays the first such
    audio. *)
Theorem renderHeader_audio_button (wordData : Entry) (h : UIManager.WordHeader) :
  let h' := UIManager.renderHeader wordData h in
  let variants := default [] (phonetics wordData) in
  (UIManager.audioBtn_hidden h' = true
   ↔ Forall (λ q, DictionaryAPI.has_audio q = false) variants)
  ∧ (UIManager.audioBtn_hidden h' = false →
     DictionaryAPI.extractAudioUrl (Some variants)
     = Some (UIManager.wordAudio_src h')
     ∧ ¬ blank (UIManager.wordAudio_src h')).
Proof.
  simpl. unfold UIManager.renderHeader, UIManager.setupAudio.
  set (variants := default [] (phonetics wordData)).
  pose proof (extractAudioUrl_missing variants) as Hnone.
  destruct (DictionaryAPI.extractAudioUrl (Some variants)) as [url|] eqn:E.
  - pose proof (extractAudioUrl_not_blank variants url E) as Hnb.
    assert (truthy url = true) as ->.
    { destruct url; [|done]. by destruct Hnb. }
    simpl. split; [|done]. split; [done|].
    intros Hall. apply Hnone in Hall. discriminate.
  - simpl. split; [|done]. split; [|done]. intros _. by apply Hnone.
Qed.

Lemma renderHeader_audio_button_witness :
  ¬ blank
      (UIManager.wordAudio_src
         (UIManager.renderHeader
            {| word := js "tree"; phonetic := None;
               phonetics :=
                 Some [ {| text := Some (js "/tri/");
                           audio := Some (js " ") |};
                        {| text := None; audio := Some (js "tree.mp3") |} ];
               meanings := []; sourceUrls := None |}
            {| UIManager.phoneticText := []; UIManager.wordAudio_src := [];
               UIManager.audioBtn_hidden := true |})).
Proof.
  destruct (renderHeader_audio_button
              {| word := js "tree"; phonetic := None;
                 phonetics :=
                   Some [ {| text := Some (js "/tri/");
                             audio := Some (js " ") |};
                          {| text := None; audio := Some (js "tree.mp3") |} ];
                 meanings := []; sourceUrls := None |}
              {| UIManager.phoneticText := []; UIManager.wordAudio_src := [];
                 UIManager.audioBtn_hidden := true |})
    as [_ Hshown].
  destruct Hshown as [_ Hnb]; [reflexivity|]. exact Hnb.
Defined.


Lemma extractAudioUrl_first_witness :
  DictionaryAPI.extractAudioUrl
    (Some [ {| text := None; audio := None |};
            {| text := None; audio := Some (js "a.mp3") |};
            {| text := None; audio := Some (js "b.mp3") |} ])
  = Some (js "a.mp3").
Proof.
  apply extractAudioUrl_first.
  exists [ {| text := None; audio := None |} ],
    {| text := None; audio := Some (js "a.mp3") |},
    [ {| text := None; audio := Some (js "b.mp3") |} ].
  repeat split; [vm_compute; discriminate|].
  repeat constructor.
Defined.

(** ** The theme *)

Lemma apply_isDark (t : ThemeManager.Theme) :
  ThemeManager.isDark (ThemeManager.apply t) = ThemeManager.isDark t.
Proof. unfold ThemeManager.apply. by destruct (js_truthy _). Qed.

Lemma apply_only_isDark (t t' : ThemeManager.Theme) :
  js_truthy (ThemeManager.isDark t) = js_truthy (ThemeManager.isDark t') →
  ThemeManager.data_theme (ThemeManager.apply t)
  = ThemeManager.data_theme (ThemeManager.apply t')
  ∧ ThemeManager.theme_icon (ThemeManager.apply t)
    = ThemeManager.theme_icon (ThemeManager.apply t').
Proof.
  intros E. unfold ThemeManager.apply. rewrite E.
  destruct (js_truthy (ThemeManager.isDark t')); split; reflexivity.
Qed.

Lemma toggle_isDark `{Platform} (t : ThemeManager.Theme) (st : Storage) :
  ThemeManager.isDark (ThemeManager.toggle t st).1
  = JBool (negb (js_truthy (ThemeManager.isDark t))).
Proof. unfold ThemeManager.toggle. simpl. by rewrite apply_isDark. Qed.

(** X11. Whatever value the theme flag holds, [toggle] makes it a
    boolean and flips the page between dark and light; two toggles bring
    back the attribute and the icon that [apply] gives the original
    flag. *)
Theorem theme_toggle_twice `{Platform}
    (t : ThemeManager.Theme) (st : Storage) :
  let t1 := (ThemeManager.toggle t st).1 in
  let st1 := (ThemeManager.toggle t st).2 in
  let t2 := (ThemeManager.toggle t1 st1).1 in
  ThemeManager.isDark t1 = JBool (negb (js_truthy (ThemeManager.isDark t)))
  ∧ (ThemeManager.data_theme t1 = Some (js "dark")
     ↔ js_truthy (ThemeManager.isDark t) = false)
  ∧ ThemeManager.isDark t2 = JBool (js_truthy (ThemeManager.isDark t))
  ∧ ThemeManager.data_theme t2
    = ThemeManager.data_theme (ThemeManager.apply t)
  ∧ ThemeManager.theme_icon t2
    = ThemeManager.theme_icon (ThemeManager.apply t).
Proof.
  cbv zeta. rewrite !toggle_isDark. cbn [js_truthy].
  rewrite negb_involutive.
  assert (∀ st', ThemeManager.data_theme
                   (ThemeManager.toggle (ThemeManager.toggle t st).1 st').1
                 = ThemeManager.data_theme (ThemeManager.apply t)
                 ∧ ThemeManager.theme_icon
                     (ThemeManager.toggle (ThemeManager.toggle t st).1 st').1
                   = ThemeManager.theme_icon (ThemeManager.apply t)) as Hback.
  { intros st'. unfold ThemeManager.toggle at 1 3. cbn [fst].
    apply apply_only_isDark. cbn [ThemeManager.isDark].
    rewrite toggle_isDark. cbn [js_truthy]. apply negb_involutive. }
  split; [done|]. split; [|split; [done|apply Hback]].
  unfold ThemeManager.toggle, ThemeManager.apply.
  cbn [fst ThemeManager.isDark js_truthy].
  destruct (js_truthy (ThemeManager.isDark t)); simpl; split; done.
Qed.

(** X12. The theme survives a restart: when the store takes the write of
    [toggle] and the boolean survives its JSON text, [initialize] on that
    store ends in the theme [toggle] left. *)
Theorem theme_survives_restart `{Platform}
    (t t0 : ThemeManager.Theme) (st : Storage) :
  let t1 := (ThemeManager.toggle t st).1 in
  let st1 := (ThemeManager.toggle t st).2 in
  JSON_serializable (ThemeManager.isDark t1) →
  (StorageManager.save STORAGE_KEYS.THEME (ThemeManager.isDark t1) st).1
  = true →
  ThemeManager.initialize st1 t0 = t1.
Proof.
  intros t1 st1 [Hne Hparse] Hok.
  assert (StorageManager.load STORAGE_KEYS.THEME (JBool false) st1
          = ThemeManager.isDark t1) as Hload.
  { assert (st1 = (StorageManager.save STORAGE_KEYS.THEME
                       (ThemeManager.isDark t1) st).2) as -> by reflexivity.
    destruct (StorageManager.save STORAGE_KEYS.THEME
                (ThemeManager.isDark t1) st) as [b st'] eqn:E.
    simpl in Hok. subst b. apply save_success in E.
    unfold StorageManager.load. cbn [snd]. rewrite E, Hparse.
    by destruct (JSON_stringify _). }
  unfold ThemeManager.initialize. rewrite Hload.
  subst t1. rewrite toggle_isDark.
  unfold ThemeManager.toggle, ThemeManager.apply. simpl.
  by destruct (negb _).
Qed.

Lemma theme_survives_restart_witness :
  ThemeManager.initialize (H := RefPlatform.ref)
    (ThemeManager.toggle (H := RefPlatform.ref)
       {| ThemeManager.isDark := JBool false;
          ThemeManager.data_theme := None;
          ThemeManager.theme_icon := ThemeManager.moon |}
       Sample.roomy_store).2
    {| ThemeManager.isDark := JBool false; ThemeManager.data_theme := None;
       ThemeManager.theme_icon := [] |}
  = {| ThemeManager.isDark := JBool true;
       ThemeManager.data_theme := Some (js "dark");
       ThemeManager.theme_icon := ThemeManager.sun |}.
Proof.
  rewrite (theme_survives_restart (H := RefPlatform.ref)).
  - reflexivity.
  - split; [vm_compute; discriminate | vm_compute; reflexivity].
  - vm_compute. reflexivity.
Defined.

(** ** The sidebars *)

(** ** The sidebars *)

Lemma consistent_step (s : SidebarManager.Sidebars)
    (ev : SidebarManager.SidebarEvent) :
  SidebarManager.consistent s →
  SidebarManager.consistent (SidebarManager.step s ev).
Proof.
  intros Hs. destruct s as [ha hh fa fh ov bo act n].
  assert (ev = SidebarManager.ev_timer ∧ n = 0%nat
          ∨ (ev = SidebarManager.ev_timer → ∃ m, n = S m)) as [[-> ->]|Hn].
  { destruct ev, n; eauto; right; done. }
  { exact Hs. }
  destruct Hs as (Hact & Hvis & Hov & Hquiet).
  unfold SidebarManager.consistent, SidebarManager.isOpen in *.
  pose proof (Hact historySidebar) as Hh.
  pose proof (Hact favoritesSidebar) as Hf.
  pose proof (Hvis historySidebar) as Hvh.
  pose proof (Hvis favoritesSidebar) as Hvf.
  assert (n = 0%nat → (ha = false → hh = true) ∧ (fa = false → fh = true))
    as Hq.
  { intros Hn'. split; [apply (Hquiet Hn' historySidebar)
                       | apply (Hquiet Hn' favoritesSidebar)]. }
  clear Hact Hvis Hquiet. simpl in *.
  destruct ev; [| | |destruct (Hn eq_refl) as [m ->]]; simpl;
    (split; [intros []|split; [intros []|split; [|intros ? []]]]); simpl;
    destruct ha, hh, fa, fh, act as [[]|]; simpl in *;
    intuition congruence.
Qed.

(** X13. Whatever the order of button presses, close requests and
    hide-after-animation timers, the open sidebar is the only one marked
    active, it is never hidden by a timer of an earlier close, the overlay
    is shown exactly while a sidebar is open, and once the timers have run
    every other sidebar is hidden. *)
Theorem sidebars_stay_consistent
    (s : SidebarManager.Sidebars) (evs : list SidebarManager.SidebarEvent) :
  SidebarManager.consistent s →
  SidebarManager.consistent (foldl SidebarManager.step s evs).
Proof.
  revert s. induction evs as [|ev evs IH]; intros s Hs; simpl; [done|].
  by apply IH, consistent_step.
Qed.

Lemma sidebars_stay_consistent_witness :
  SidebarManager.consistent
    (foldl SidebarManager.step SidebarManager.loaded
       [SidebarManager.ev_showFavorites; SidebarManager.ev_showHistory;
        SidebarManager.ev_timer; SidebarManager.ev_timer;
        SidebarManager.ev_closeAll]).
Proof.
  apply sidebars_stay_consistent.
  unfold SidebarManager.consistent.
  split; [intros []; split; discriminate|].
  split; [intros []; discriminate|].
  split; [reflexivity|]. intros _ []; reflexivity.
Defined.

(** ** What one lookup changes *)

Lemma handleSearchError_keeps (e : JSError) (word : list N) (w : World) :
  let w' := WordlyApp.handleSearchError e word w in
  state w' = state w
  ∧ activeSidebar w' = activeSidebar w
  ∧ localStorage w' = localStorage w
  ∧ favoriteBtn_active (ui w') = favoriteBtn_active (ui w)
  ∧ favoritesList (ui w') = favoritesList (ui w)
  ∧ historyList (ui w') = historyList (ui w).
Proof.
  unfold WordlyApp.handleSearchError. repeat case_decide; done.
Qed.

Lemma searchWord_outcome `{Platform} net word w :
  SearchOutcome net word w (WordlyApp.searchWord net word w).
Proof.
  destruct (decide (blank word)) as [Hb|Hnb].
  { apply search_refused; [done|]. by apply searchWord_blank. }
  destruct (DictionaryAPI.fetchWord net (toLowerCase (trim word))).2
    as [[wordData|]|e] eqn:Hr.
  - apply (search_displayed _ _ _ _ wordData); try done.
    + by apply searchWord_success.
    + search_accepted. by rewrite Hr.
    + search_accepted. by rewrite Hr.
  - apply search_undefined; try done; search_accepted; rewrite Hr;
      match goal with
      | |- context [WordlyApp.handleSearchError ?e ?x ?w2] =>
          destruct (handleSearchError_keeps e x w2) as (Hs & _ & Hl & _);
          destruct (handleSearchError_in_error e x w2) as (He & _)
      end; [by rewrite Hs | by rewrite Hl | done].
  - apply (search_failed _ _ _ _ e); try done; search_accepted; rewrite Hr;
      match goal with
      | |- context [WordlyApp.handleSearchError ?e ?x ?w2] =>
          destruct (handleSearchError_keeps e x w2)
            as (Hs & _ & Hl & Hstar & _);
          destruct (handleSearchError_in_error e x w2) as (He & _)
      end; [by rewrite Hs | by rewrite Hl | by rewrite Hstar | done].
Qed.

Lemma searchWord_frame `{Platform} net word w :
  let w' := WordlyApp.searchWord net word w in
  favorites (state w') = favorites (state w)
  ∧ activeSidebar w' = activeSidebar w
  ∧ favoritesList (ui w') = favoritesList (ui w)
  ∧ historyList (ui w') = historyList (ui w).
Proof.
  simpl. unfold WordlyApp.searchWord.
  destruct (negb (truthy word) || bool_decide (trim word = [])); [done|].
  cbv zeta.
  destruct (DictionaryAPI.fetchWord net (toLowerCase (trim word))).2
    as [[wordData|]|e]; [done|..];
    match goal with
    | |- context [WordlyApp.handleSearchError ?e ?x ?w2] =>
        by destruct (handleSearchError_keeps e x w2)
          as (-> & -> & _ & _ & -> & ->)
    end.
Qed.

(** ** Invariants of the application *)

Lemma favoritesChanged_sidebar `{Platform} word favs w :
  let w' := WordlyApp.favoritesChanged word favs w in
  activeSidebar w' = activeSidebar w
  ∧ searchHistory (state w') = searchHistory (state w)
  ∧ currentWord (state w') = currentWord (state w)
  ∧ favorites (state w') = favs
  ∧ (activeSidebar w = Some favoritesSidebar →
     favoritesList (ui w')
     = UIManager.renderSidebarList favs
         (js "No favorite words yet. Click the star to save words!")).
Proof.
  simpl. unfold WordlyApp.favoritesChanged. cbv zeta.
  case_decide as Hopen; simpl in *; [|done].
  by rewrite Hopen.
Qed.

Lemma submit_cases `{Platform} net text w :
  WordlyApp.submit net text w
  = if bool_decide (blank text)
    then set_ui (UIManager.set_wordInput text (ui w)) w
    else WordlyApp.searchWord net (trim text)
           (set_ui (UIManager.set_wordInput text (ui w)) w).
Proof.
  case_bool_decide as Hb; [by apply submit_blank|].
  unfold WordlyApp.submit, WordlyApp.onSearchFormSubmit. simpl.
  rewrite <- trim_nil_iff in Hb. by destruct (trim text).
Qed.

Lemma lists_bounded_search `{Platform} net word w :
  lists_bounded w → lists_bounded (WordlyApp.searchWord net word w).
Proof.
  intros [[Hnd Hlen] Hf].
  destruct (searchWord_frame net word w) as (Hfav & _).
  split; [|by rewrite Hfav].
  destruct (searchWord_outcome net word w)
    as [_ ->|e _ _ -> _ _ _|_ _ -> _ _|wordData _ _ -> _ _]; try done.
  cbn [searchHistory]. split.
  - eapply sublist_NoDup; [|apply sublist_take].
    constructor; [|by apply NoDup_filter].
    rewrite list_elem_of_filter. naive_solver.
  - rewrite length_take. lia.
Qed.

Lemma lists_bounded_frame (w w' : World) :
  searchHistory (state w') = searchHistory (state w) →
  favorites (state w') = favorites (state w) →
  lists_bounded w → lists_bounded w'.
Proof. unfold lists_bounded. by intros -> ->. Qed.

Lemma bounded_list_nil (n : nat) : bounded_list n [].
Proof. split; [constructor | simpl; lia]. Qed.

Lemma lists_bounded_perform `{Platform} (w : World) (a : WordlyApp.Action) :
  lists_bounded w → lists_bounded (WordlyApp.perform w a).
Proof.
  intros Hw. destruct a as [net text|net word|net i| | | | |c|c|net i|net i];
    simpl.
  - rewrite submit_cases. case_bool_decide; [done|].
    by apply lists_bounded_search.
  - by apply lists_bounded_search.
  - unfold WordlyApp.searchRandomWord.
    destruct (WordlyApp.randomWords !! i); by apply lists_bounded_search.
  - done.
  - done.
  - destruct Hw as [Hh Hf]. split.
    + unfold WordlyApp.toggleFavorite.
      destruct (currentWord (state w)); try done.
      destruct (indexOf _ _); [|case_decide; [done|]];
        match goal with
        | |- context [WordlyApp.favoritesChanged ?x ?l ?w0] =>
            by destruct (favoritesChanged_sidebar x l w0) as (_ & -> & _)
        end.
    + by apply toggleFavorite_bounded.
  - done.
  - destruct c; [|done]. destruct Hw as [_ Hf].
    split; [apply bounded_list_nil | done].
  - destruct c; [|done]. destruct Hw as [Hh _].
    unfold WordlyApp.clearFavorites.
    split; [|destruct (currentWord _); apply bounded_list_nil].
    by destruct (currentWord _).
  - unfold WordlyApp.onHistoryListClick, WordlyApp.onListClick.
    destruct (historyList (ui w) !! i) as [[|txt]|]; try done.
    by apply (lists_bounded_search net (toLowerCase txt) w).
  - unfold WordlyApp.onFavoritesListClick, WordlyApp.onListClick.
    destruct (favoritesList (ui w) !! i) as [[|txt]|]; try done.
    by apply (lists_bounded_search net (toLowerCase txt) w).
Qed.

(** X14. Whatever the user does and whatever the network answers, the
    history stays free of duplicates and within 50 items, and the
    favorites stay free of duplicates and within 100 items. *)
Theorem lists_stay_bounded `{Platform}
    (w : World) (actions : list WordlyApp.Action) :
  lists_bounded w →
  lists_bounded (foldl WordlyApp.perform w actions).
Proof.
  revert w. induction actions as [|a actions IH]; intros w Hw; simpl;
    [done|].
  by apply IH, lists_bounded_perform.
Qed.

Lemma lists_stay_bounded_witness :
  lists_bounded
    (foldl (WordlyApp.perform (H := RefPlatform.ref))
       (fresh Sample.roomy_store)
       [WordlyApp.do_submit
          (Sample.always (Sample.answers 80 200 (Some [Sample.greeting])))
          (js "Hello");
        WordlyApp.do_favorite; WordlyApp.do_favorites;
        WordlyApp.do_favoritesItem
          (Sample.always (Sample.answers 80 200 (Some [Sample.greeting])))
          0;
        WordlyApp.do_clearHistory true]).
Proof.
  apply (lists_stay_bounded (H := RefPlatform.ref)).
  split; apply bounded_list_nil.
Defined.

Lemma in_sync_search `{Platform} net word w :
  favorites_in_sync w → favorites_in_sync (WordlyApp.searchWord net word w).
Proof.
  intros [Hstar Hlist].
  destruct (searchWord_frame net word w) as (Hfav & Hside & Hfl & _).
  split; [|by rewrite Hfav, Hside, Hfl].
  rewrite Hfav.
  destruct (searchWord_outcome net word w)
    as [_ ->|e _ _ -> _ -> _|_ _ -> _ _|wordData _ _ -> _ ->]; try done.
  intros wd [= <-]. done.
Qed.

Lemma in_sync_frame `{Platform} (w w' : World) :
  state w' = state w →
  favoriteBtn_active (ui w') = favoriteBtn_active (ui w) →
  favoritesList (ui w') = favoritesList (ui w) →
  activeSidebar w' = activeSidebar w ∨ activeSidebar w' ≠ Some favoritesSidebar →
  favorites_in_sync w → favorites_in_sync w'.
Proof.
  intros Hs Hb Hl Ha [Hstar Hlist]. split.
  - rewrite Hs, Hb. done.
  - rewrite Hs, Hl. destruct Ha as [-> | Hne]; [done|]. by intros ?.
Qed.

Lemma in_sync_toggle `{Platform} w :
  favorites_in_sync w → favorites_in_sync (WordlyApp.toggleFavorite w).
Proof.
  intros Hw. unfold WordlyApp.toggleFavorite.
  destruct (currentWord (state w)) as [| |wordData] eqn:Hc; try done.
  assert (∀ favs, favorites_in_sync
                    (WordlyApp.favoritesChanged (Lexical.word wordData)
                       favs w)) as Hchanged.
  { intros favs.
    destruct (favoritesChanged_sidebar (Lexical.word wordData) favs w)
      as (Hside & _ & Hcw & Hfav & Hlist).
    destruct (favoritesChanged_state (Lexical.word wordData) favs w)
      as (_ & _ & _ & Hstar).
    split.
    - rewrite Hcw, Hc, Hfav, Hstar. by intros wd [= <-].
    - rewrite Hside, Hfav. exact Hlist. }
  destruct (indexOf _ _); [apply Hchanged|].
  case_decide; [|apply Hchanged].
  apply (in_sync_frame w); auto.
Qed.

Lemma in_sync_perform `{Platform} (w : World) (a : WordlyApp.Action) :
  favorites_in_sync w → favorites_in_sync (WordlyApp.perform w a).
Proof.
  intros Hw. destruct a as [net text|net word|net i| | | | |c|c|net i|net i];
    simpl.
  - rewrite submit_cases. case_bool_decide.
    + by apply (in_sync_frame w); auto.
    + apply in_sync_search. by apply (in_sync_frame w); auto.
  - by apply in_sync_search.
  - unfold WordlyApp.searchRandomWord.
    destruct (WordlyApp.randomWords !! i); by apply in_sync_search.
  - apply (in_sync_frame w); try done. by right.
  - destruct Hw as [Hstar _]. by split.
  - by apply in_sync_toggle.
  - apply (in_sync_frame w); try done. by right.
  - destruct c; [|done]. destruct Hw as [Hstar _].
    split; [exact Hstar | by intros ?].
  - destruct c; [|done]. unfold WordlyApp.clearFavorites. simpl.
    destruct (currentWord (state w)) as [| |wordData] eqn:Hc; simpl;
      (split; simpl; [rewrite Hc|done]); done.
  - unfold WordlyApp.onHistoryListClick, WordlyApp.onListClick.
    destruct (historyList (ui w) !! i) as [[|txt]|]; try done.
    destruct (in_sync_search net (toLowerCase txt) w Hw) as [Hstar _].
    split; [exact Hstar | by intros ?].
  - unfold WordlyApp.onFavoritesListClick, WordlyApp.onListClick.
    destruct (favoritesList (ui w) !! i) as [[|txt]|]; try done.
    destruct (in_sync_search net (toLowerCase txt) w Hw) as [Hstar _].
    split; [exact Hstar | by intros ?].
Qed.

(** X15. Whatever the user does and whatever the network answers, the
    star of the word on display is lit exactly when that word is among the
    favorites, and the favorites sidebar, while open, lists the favorites
    as they are. *)
Theorem favorites_stay_in_sync `{Platform}
    (w : World) (actions : list WordlyApp.Action) :
  favorites_in_sync w →
  favorites_in_sync (foldl WordlyApp.perform w actions).
Proof.
  revert w. induction actions as [|a actions IH]; intros w Hw; simpl;
    [done|].
  by apply IH, in_sync_perform.
Qed.

Lemma favorites_stay_in_sync_witness :
  favorites_in_sync (H := RefPlatform.ref)
    (foldl (WordlyApp.perform (H := RefPlatform.ref))
       (fresh Sample.roomy_store)
       [WordlyApp.do_wordTag
          (Sample.always (Sample.answers 80 200 (Some [Sample.greeting])))
          (js "hello");
        WordlyApp.do_favorites; WordlyApp.do_favorite;
        WordlyApp.do_clearFavorites true]).
Proof.
  apply (favorites_stay_in_sync (H := RefPlatform.ref)).
  split; [intros wd Hc; discriminate | intros Ha; discriminate].
Defined.

(** ** Lookups that fail, lookups that succeed *)




(** X17. A lookup that succeeds leaves the page on the word display
    (no loading state, no error panel) with the entry as current word; the
    star tells whether the entry's word is a favorite, and the synonyms and
    antonyms containers are shown exactly when there are some, with the
    aggregated lists in them. The favorites are not touched. *)
Theorem successful_lookup_displays `{Platform}
    (net : Network) (word : list N) (w : World) (wordData : Entry) :
  ¬ blank word →
  (DictionaryAPI.fetchWord net (toLowerCase (trim word))).2
  = Return (Some wordData) →
  let w' := WordlyApp.searchWord net word w in
  let synonyms := DictionaryAPI.collectSynonyms (meanings wordData) in
  let antonyms := DictionaryAPI.collectAntonyms (meanings wordData) in
  (wordDisplay_hidden (ui w') = false
   ∧ loadingState_hidden (ui w') = true
   ∧ errorContainer_hidden (ui w') = true)
  ∧ currentWord (state w') = cw_entry wordData
  ∧ favorites (state w') = favorites (state w)
  ∧ favoriteBtn_active (ui w')
    = includes (Lexical.word wordData) (favorites (state w))
  ∧ (synonymsContainer_hidden (ui w') = true ↔ synonyms = [])
  ∧ (synonyms ≠ [] → synonymsList (ui w') = synonyms)
  ∧ (antonymsContainer_hidden (ui w') = true ↔ antonyms = [])
  ∧ (antonyms ≠ [] → antonymsList (ui w') = antonyms).
Proof.
  intros Hnb Hr w' synonyms antonyms. subst w'.
  destruct (searchWord_outcome net word w)
    as [Hb _|e _ He _ _ _ _|_ He _ _ _|wd _ Hwd Hs _ Hu];
    [done | congruence | congruence |].
  rewrite Hr in Hwd. injection Hwd as <-.
  rewrite Hs, Hu. unfold UIManager.renderWord. simpl.
  fold synonyms antonyms.
  repeat split; try done;
    try (destruct synonyms; simpl; done);
    try (destruct antonyms; simpl; done).
Qed.

Lemma successful_lookup_displays_witness :
  let w := WordlyApp.searchWord (H := RefPlatform.ref)
             (Sample.always (Sample.answers 80 200 (Some [Sample.greeting])))
             (js "hello") (Sample.world (js "tree") [js "hello"]) in
  favoriteBtn_active (ui w) = true
  ∧ synonymsList (ui w)
    = [js "greetings"; js "hi"; js "hey"; js "salutation"].
Proof.
  destruct (successful_lookup_displays (H := RefPlatform.ref)
              (Sample.always (Sample.answers 80 200 (Some [Sample.greeting])))
              (js "hello") (Sample.world (js "tree") [js "hello"])
              Sample.greeting)
    as (_ & _ & _ & Hstar & _ & Hsyn & _).
  - vm_compute. discriminate.
  - vm_compute. reflexivity.
  - split; [exact Hstar|]. apply Hsyn. vm_compute. discriminate.
Defined.

(** X18. For a text that is not blank, submitting the search form does
    exactly what [searchWord] does with that text: the listener's own
    [trim] changes nothing. *)
Theorem submit_is_search `{Platform}
    (net : Network) (text : list N) (w : World) :
  ¬ blank text →
  WordlyApp.submit net text w = WordlyApp.searchWord net text w.
Proof.
  intros Hnb. rewrite submit_cases, bool_decide_eq_false_2 by done.
  assert (¬ blank (trim text)) as Hnb'.
  { rewrite <- trim_nil_iff, trim_trimmed. by rewrite trim_nil_iff. }
  unfold WordlyApp.searchWord.
  rewrite !blank_nil_or, !bool_decide_eq_false_2 by done.
  by rewrite trim_trimmed.
Qed.

Lemma submit_is_search_witness :
  WordlyApp.submit (H := RefPlatform.ref)
    (Sample.always (Sample.answers 80 200 (Some [Sample.greeting])))
    (js " Hello ") (fresh Sample.roomy_store)
  = WordlyApp.searchWord (H := RefPlatform.ref)
      (Sample.always (Sample.answers 80 200 (Some [Sample.greeting])))
      (js " Hello ") (fresh Sample.roomy_store).
Proof.
  apply (submit_is_search (H := RefPlatform.ref)).
  vm_compute. discriminate.
Defined.

(** ** Random words and sidebar items *)

Lemma searchWord_lookups `{Platform} net word w :
  ¬ blank word →
  lookups (trace (WordlyApp.searchWord net word w))
  = lookups (trace w) ++ [toLowerCase (trim word)].
Proof.
  intros Hnb. rewrite (searchWord_trace net word w Hnb).
  unfold lookups at 1. rewrite omap_app. simpl.
  fold (lookups (trace w)).
  fold (lookups (DictionaryAPI.fetchWord net (toLowerCase (trim word))).1).
  by rewrite fetchWord_events.
Qed.

Lemma randomWords_clean (word : list N) :
  word ∈ WordlyApp.randomWords → ¬ blank word ∧ trim word = word.
Proof.
  assert (Forall (λ x, ¬ blank x ∧ trim x = x) WordlyApp.randomWords)
    as Hall.
  { repeat constructor; vm_compute; discriminate. }
  intros Hin. by apply (proj1 (Forall_forall _ _) Hall).
Qed.

(** X19. [searchRandomWord] always reaches the lookup client: for every
    index within the array the Invalid Input guard is not met, and the
    search is that of the lower-casing of the word at that index: its
    events are those of [fetchWord] on it, and the one request that goes
    out is for that word, encoded. An index outside the array would end on
    Invalid Input without a lookup. *)
Theorem random_word_is_looked_up `{Platform}
    (net : Network) (randomIndex : nat) (w : World) :
  let w' := WordlyApp.searchRandomWord net randomIndex w in
  ((randomIndex < length WordlyApp.randomWords)%nat →
   ∃ word, word ∈ WordlyApp.randomWords
           ∧ WordlyApp.randomWords !! randomIndex = Some word
           ∧ trace w'
             = trace w
               ++ Lookup (toLowerCase word)
                  :: (DictionaryAPI.fetchWord net (toLowerCase word)).1
           ∧ requests (trace w')
             = requests (trace w)
               ++ from_option
                    (λ u, [API_CONFIG.BASE_URL ++ js "/" ++ u]) []
                    (encodeURIComponent (toLowerCase word))
           ∧ lookups (trace w') = lookups (trace w) ++ [toLowerCase word]
           ∧ wordInput (ui w') = strip_newlines (toLowerCase word))
  ∧ ((length WordlyApp.randomWords ≤ randomIndex)%nat →
     in_error InvalidInput w' ∧ trace w' = trace w).
Proof.
  cbv zeta. unfold WordlyApp.searchRandomWord. split.
  - intros Hlt. destruct (lookup_lt_is_Some_2 _ _ Hlt) as [word Hw].
    rewrite Hw. exists word.
    assert (word ∈ WordlyApp.randomWords) as Hin
      by (by eapply list_elem_of_lookup_2).
    destruct (randomWords_clean word Hin) as [Hnb Htrim].
    pose proof (searchWord_trace net word w Hnb) as Ht.
    rewrite Htrim in Ht.
    split; [done|]. split; [done|]. split; [done|]. split; [|split].
    + rewrite Ht. unfold requests at 1. rewrite omap_app. simpl.
      fold (requests (trace w)).
      fold (requests (DictionaryAPI.fetchWord net (toLowerCase word)).1).
      by rewrite fetchWord_requests.
    + by rewrite searchWord_lookups, Htrim.
    + rewrite <- Htrim at 2.
      destruct (searchWord_outcome net word w)
        as [Hb _|e _ Hr _ _ _ _|_ Hr _ _ _|wd _ Hr _ _ Hu]; [done|..].
      * by destruct (searchWord_failure net word w e Hnb Hr) as (_&_&_&->).
      * search_accepted. rewrite Hr.
        match goal with
        | |- context [WordlyApp.handleSearchError ?e ?x ?w2] =>
            by destruct (handleSearchError_in_error e x w2)
              as (_ & _ & _ & _ & ->)
        end.
      * by rewrite Hu.
  - intros Hge. rewrite (lookup_ge_None_2 _ _ Hge).
    by rewrite searchWord_blank.
Qed.

Lemma random_word_is_looked_up_witness :
  let w := WordlyApp.searchRandomWord (H := RefPlatform.ref)
             (Sample.always Sample.unreachable) 12
             (fresh Sample.roomy_store) in
  lookups (trace w) = [js "euphoria"]
  ∧ requests (trace w) = [API_CONFIG.BASE_URL ++ js "/euphoria"].
Proof.
  destruct (random_word_is_looked_up (H := RefPlatform.ref)
              (Sample.always Sample.unreachable) 12
              (fresh Sample.roomy_store)) as [Hin _].
  destruct Hin as (word & _ & Hw & _ & Hq & Hl & _); [vm_compute; lia|].
  injection Hw as <-. exact (conj Hl Hq).
Defined.

(** X20. In the history sidebar as [showHistory] renders it, a click on
    the item of the i-th word looks up the lower-casing of that word as it
    is displayed (capitalised) and closes the sidebar; a click where there
    is no word (the placeholder of an empty history, or below the last
    item) does nothing. The same holds of the favorites sidebar. *)
Theorem sidebar_item_click `{Platform}
    (net : Network) (index : nat) (w : World) :
  ((∀ item, searchHistory (state w) !! index = Some item →
      WordlyApp.onHistoryListClick net index (WordlyApp.showHistory w)
      = WordlyApp.sidebar_closeAll
          (WordlyApp.searchWord net (toLowerCase (Utils.capitalize item))
             (WordlyApp.showHistory w)))
   ∧ (searchHistory (state w) !! index = None →
      WordlyApp.onHistoryListClick net index (WordlyApp.showHistory w)
      = WordlyApp.showHistory w))
  ∧ ((∀ item, favorites (state w) !! index = Some item →
        WordlyApp.onFavoritesListClick net index (WordlyApp.showFavorites w)
        = WordlyApp.sidebar_closeAll
            (WordlyApp.searchWord net (toLowerCase (Utils.capitalize item))
               (WordlyApp.showFavorites w)))
     ∧ (favorites (state w) !! index = None →
        WordlyApp.onFavoritesListClick net index (WordlyApp.showFavorites w)
        = WordlyApp.showFavorites w)).
Proof.
  assert (∀ (l : list (list N)) msg,
            UIManager.renderSidebarList l msg !! index
            = match l !! index with
              | Some item => Some (li_item (Utils.capitalize item))
              | None => match l, index with
                        | [], O => Some (li_empty msg)
                        | _, _ => None
                        end
              end) as Hrender.
  { intros l msg. unfold UIManager.renderSidebarList.
    destruct l as [|x l]; [by destruct index|].
    rewrite decide_False by done. rewrite list_lookup_fmap.
    by destruct ((x :: l) !! index). }
  split; split.
  - intros item Hitem.
    unfold WordlyApp.onHistoryListClick, WordlyApp.showHistory at 1.
    cbn [ui set_activeSidebar set_ui UIManager.set_historyList historyList].
    by rewrite Hrender, Hitem.
  - intros Hnone.
    unfold WordlyApp.onHistoryListClick, WordlyApp.showHistory at 1.
    cbn [ui set_activeSidebar set_ui UIManager.set_historyList historyList].
    rewrite Hrender, Hnone.
    by destruct (searchHistory (state w)), index.
  - intros item Hitem.
    unfold WordlyApp.onFavoritesListClick, WordlyApp.showFavorites at 1.
    cbn [ui set_activeSidebar set_ui UIManager.set_favoritesList
         favoritesList].
    by rewrite Hrender, Hitem.
  - intros Hnone.
    unfold WordlyApp.onFavoritesListClick, WordlyApp.showFavorites at 1.
    cbn [ui set_activeSidebar set_ui UIManager.set_favoritesList
         favoritesList].
    rewrite Hrender, Hnone.
    by destruct (favorites (state w)), index.
Qed.

Lemma sidebar_item_click_witness :
  lookups
    (trace (WordlyApp.onHistoryListClick (H := RefPlatform.ref)
              (Sample.always Sample.unreachable) 0
              (WordlyApp.showHistory (H := RefPlatform.ref)
                 (Sample.world (js "tree") []))))
  = [js "tree"]
  ∧ WordlyApp.onFavoritesListClick (H := RefPlatform.ref)
      (Sample.always Sample.unreachable) 0
      (WordlyApp.showFavorites (H := RefPlatform.ref)
         (Sample.world (js "tree") []))
    = WordlyApp.showFavorites (H := RefPlatform.ref)
        (Sample.world (js "tree") []).
Proof.
  destruct (sidebar_item_click (H := RefPlatform.ref)
              (Sample.always Sample.unreachable) 0
              (Sample.world (js "tree") []))
    as [[Hitem _] [_ Hnone]].
  split.
  - rewrite (Hitem (js "tree")); [vm_compute; reflexivity | reflexivity].
  - apply Hnone. reflexivity.
Defined.

(** ** What a restart finds *)

Lemma as_words_words_value (l : list (list N)) :
  WordlyApp.as_words (words_value l) = Some l.
Proof.
  unfold WordlyApp.as_words, words_value. apply mapM_Some_2.
  induction l as [|x l IH]; simpl; by constructor.
Qed.

Lemma load_saved `{Platform} key v d st :
  JSON_serializable v →
  (StorageManager.save key v st).1 = true →
  StorageManager.load key d (StorageManager.save key v st).2 = v.
Proof.
  intros [Hne Hparse] Hok.
  destruct (StorageManager.save key v st) as [b st'] eqn:E.
  simpl in *. subst b. apply save_success in E.
  unfold StorageManager.load. rewrite E, Hparse.
  by destruct (JSON_stringify v).
Qed.

Lemma history_key_not_favorites :
  STORAGE_KEYS.SEARCH_HISTORY ≠ STORAGE_KEYS.FAVORITES.
Proof. vm_compute. discriminate. Qed.

(** X21. When the store holds the two lists as they are in memory, an
    application started on that store gets exactly these lists from
    [loadSavedData]; on an empty store it gets two empty lists. *)
Theorem restart_restores_lists `{Platform} (w w0 : World) :
  (persisted w →
   localStorage w0 = localStorage w →
   WordlyApp.loadSavedData w0
   = Some (set_state
             (set_favorites (favorites (state w))
                (set_searchHistory (searchHistory (state w)) (state w0)))
             w0))
  ∧ (items (localStorage w0) = ∅ →
     WordlyApp.loadSavedData w0
     = Some (set_state
               (set_favorites [] (set_searchHistory [] (state w0))) w0)).
Proof.
  split.
  - intros [Hh Hf] Hst. unfold WordlyApp.loadSavedData.
    rewrite Hst, Hh, Hf, !as_words_words_value. done.
  - intros Hempty. unfold WordlyApp.loadSavedData, StorageManager.load,
      getItem.
    rewrite Hempty, !lookup_empty. done.
Qed.

Lemma restart_restores_lists_witness :
  let w := WordlyApp.toggleFavorite (H := RefPlatform.ref)
             (WordlyApp.addToHistory (H := RefPlatform.ref) (js "leaf")
                (set_state {| currentWord :=
                                cw_entry (Sample.entry_of (js "leaf"));
                              searchHistory := []; favorites := [] |}
                   (fresh Sample.roomy_store))) in
  (λ w', (searchHistory (state w'), favorites (state w')))
    <$> WordlyApp.loadSavedData (H := RefPlatform.ref)
          (fresh (localStorage w))
  = Some ([js "leaf"], [js "leaf"]).
Proof.
  intros w.
  destruct (restart_restores_lists (H := RefPlatform.ref) w
              (fresh (localStorage w))) as [Hrestart _].
  rewrite Hrestart; [reflexivity| |reflexivity].
  split; vm_compute; reflexivity.
Defined.

(** X22. Each write of a list keeps the store in step with memory: when
    the store takes the write and the list survives its JSON text,
    [addToHistory] and [toggleFavorite] leave the store holding both lists
    as they are in memory, provided it did before. *)
Theorem writes_keep_persisted `{Platform} (word : list N) (w : World) :
  persisted w →
  (let w' := WordlyApp.addToHistory word w in
   JSON_serializable (words_value (searchHistory (state w'))) →
   (StorageManager.save STORAGE_KEYS.SEARCH_HISTORY
      (words_value (searchHistory (state w'))) (localStorage w)).1 = true →
   persisted w')
  ∧ (let w' := WordlyApp.toggleFavorite w in
     JSON_serializable (words_value (favorites (state w'))) →
     (StorageManager.save STORAGE_KEYS.FAVORITES
        (words_value (favorites (state w'))) (localStorage w)).1 = true →
     persisted w').
Proof.
  intros [Hh Hf]. split.
  - intros w' Hser Hok. subst w'. split.
    + rewrite addToHistory_storage. by apply load_saved.
    + rewrite addToHistory_storage.
      rewrite load_other_key by apply history_key_not_favorites.
      by destruct (addToHistory_state word w) as (_ & -> & _).
  - cbv zeta. unfold WordlyApp.toggleFavorite.
    destruct (currentWord (state w)) as [| |wordData]; [done..|].
    assert (∀ favs,
              JSON_serializable
                (words_value
                   (favorites (state (WordlyApp.favoritesChanged
                                        (Lexical.word wordData) favs w)))) →
              (StorageManager.save STORAGE_KEYS.FAVORITES
                 (words_value
                    (favorites (state (WordlyApp.favoritesChanged
                                         (Lexical.word wordData) favs w))))
                 (localStorage w)).1 = true →
              persisted (WordlyApp.favoritesChanged
                           (Lexical.word wordData) favs w)) as Hchanged.
    { intros favs.
      destruct (favoritesChanged_state (Lexical.word wordData) favs w)
        as (Hs & _ & Hst & _).
      unfold persisted. rewrite Hs, Hst.
      cbn [favorites set_favorites searchHistory].
      intros Hser Hok. split.
      - rewrite load_other_key; [done|].
        intros E. symmetry in E. by apply history_key_not_favorites.
      - by apply load_saved. }
    destruct (indexOf _ _); [apply Hchanged|].
    case_decide; [|apply Hchanged]. by intros _ _.
Qed.

Lemma writes_keep_persisted_witness :
  persisted (H := RefPlatform.ref)
    (WordlyApp.addToHistory (H := RefPlatform.ref) (js "leaf")
       (fresh Sample.roomy_store)).
Proof.
  destruct (writes_keep_persisted (H := RefPlatform.ref) (js "leaf")
              (fresh Sample.roomy_store)) as [Hadd _].
  - split; reflexivity.
  - apply Hadd.
    + apply ref_words_serializable.
    + vm_compute. reflexivity.
Defined.

(** ** How the two lists keep apart *)

Lemma filter_all {A} (P : A → Prop) `{∀ x, Decision (P x)} (l : list A) :
  Forall P l → filter P l = l.
Proof.
  induction 1 as [|x l Hx _ IH]; [done|].
  by rewrite filter_cons_True, IH.
Qed.

(** X23. Adding the same word to the history twice in a row gives the
    history that adding it once gives. *)
Theorem addToHistory_idempotent `{Platform} (word : list N) (w : World) :
  searchHistory
    (state (WordlyApp.addToHistory word (WordlyApp.addToHistory word w)))
  = searchHistory (state (WordlyApp.addToHistory word w)).
Proof.
  rewrite !addToHistory_history.
  set (others := filter (λ x, x ≠ word) (searchHistory (state w))).
  change (take APP_CONSTANTS.MAX_HISTORY_ITEMS (word :: others))
    with (word :: take 49 others).
  rewrite filter_cons_False by naive_solver.
  rewrite filter_all.
  - change (take APP_CONSTANTS.MAX_HISTORY_ITEMS (word :: take 49 others))
      with (word :: take 49 (take 49 others)).
    by rewrite take_take.
  - apply Forall_forall. intros x Hx%(subseteq_take 49).
    by apply list_elem_of_filter in Hx as [Hne _].
Qed.

(** X24. A lookup never changes the favorites, in memory or in the
    store, nor the stored theme; toggling a favorite never changes the
    history, in memory or in the store, nor the current word. *)
Theorem lists_keep_apart `{Platform}
    (net : Network) (word : list N) (w : World) (d : JSON) :
  (favorites (state (WordlyApp.searchWord net word w)) = favorites (state w)
   ∧ StorageManager.load STORAGE_KEYS.FAVORITES d
       (localStorage (WordlyApp.searchWord net word w))
     = StorageManager.load STORAGE_KEYS.FAVORITES d (localStorage w)
   ∧ StorageManager.load STORAGE_KEYS.THEME d
       (localStorage (WordlyApp.searchWord net word w))
     = StorageManager.load STORAGE_KEYS.THEME d (localStorage w))
  ∧ (searchHistory (state (WordlyApp.toggleFavorite w))
     = searchHistory (state w)
     ∧ currentWord (state (WordlyApp.toggleFavorite w))
       = currentWord (state w)
     ∧ StorageManager.load STORAGE_KEYS.SEARCH_HISTORY d
         (localStorage (WordlyApp.toggleFavorite w))
       = StorageManager.load STORAGE_KEYS.SEARCH_HISTORY d (localStorage w)).
Proof.
  split.
  - destruct (searchWord_frame net word w) as (Hfav & _).
    split; [done|].
    destruct (searchWord_outcome net word w)
      as [_ ->|e _ _ _ -> _ _|_ _ _ -> _|wordData _ _ _ -> _]; try done.
    split; apply load_other_key; vm_compute; discriminate.
  - split; [|split; [apply toggleFavorite_currentWord|]];
      unfold WordlyApp.toggleFavorite;
      (destruct (currentWord (state w)) as [| |wordData]; [done..|]);
      (destruct (indexOf _ _); [|case_decide; [done|]]);
      match goal with
      | |- context [WordlyApp.favoritesChanged ?x ?l ?w0] =>
          destruct (favoritesChanged_state x l w0) as (Hs & _ & Hst & _);
          rewrite ?Hs, ?Hst
      end; try done;
      apply load_other_key; vm_compute; discriminate.
Qed.

(** ** Clearing a list *)

(** X25. A confirmed [clearFavorites] leaves no favorite, puts the star
    out for the word on display, and opens the favorites sidebar on its
    placeholder alone, where no click triggers a lookup; the history and
    the current word are as before. Declined, it changes nothing. *)
Theorem clearFavorites_confirmed `{Platform}
    (net : Network) (index : nat) (w : World) (confirmed : bool) :
  let w' := WordlyApp.clearFavorites confirmed w in
  (confirmed = true →
   favorites (state w') = []
   ∧ searchHistory (state w') = searchHistory (state w)
   ∧ currentWord (state w') = currentWord (state w)
   ∧ (∀ wordData, currentWord (state w) = cw_entry wordData →
        favoriteBtn_active (ui w') = false)
   ∧ activeSidebar w' = Some favoritesSidebar
   ∧ favoritesList (ui w')
     = [li_empty (js "No favorite words yet. Click the star to save words!")]
   ∧ WordlyApp.onFavoritesListClick net index w' = w')
  ∧ (confirmed = false → w' = w).
Proof.
  cbv zeta. split; intros ->; [|done].
  unfold WordlyApp.clearFavorites.
  destruct (currentWord (state w)) as [| |wordData] eqn:Hc; simpl;
    rewrite ?Hc; simpl; repeat split; try done;
    unfold WordlyApp.onFavoritesListClick; simpl;
    by destruct index.
Qed.

Lemma clearFavorites_confirmed_witness :
  favorites
    (state (WordlyApp.clearFavorites (H := RefPlatform.ref) true
              (Sample.world (js "tree") [js "tree"; js "leaf"])))
  = []
  ∧ favoriteBtn_active
      (ui (WordlyApp.clearFavorites (H := RefPlatform.ref) true
             (Sample.world (js "tree") [js "tree"; js "leaf"])))
    = false.
Proof.
  destruct (clearFavorites_confirmed (H := RefPlatform.ref)
              (Sample.always Sample.unreachable) 0
              (Sample.world (js "tree") [js "tree"; js "leaf"]) true)
    as [Hyes _].
  destruct Hyes as (Hf & _ & _ & Hstar & _); [reflexivity|].
  split; [exact Hf|]. by apply (Hstar (Sample.entry_of (js "tree"))).
Defined.

(** ** The history as a record of the latest lookups *)

Lemma filter_ne_length (x : list N) (l : list (list N)) :
  NoDup l → (length l ≤ S (length (filter (λ y, y ≠ x) l)))%nat.
Proof.
  induction 1 as [|y l Hy Hnd IH]; [simpl; lia|].
  destruct (decide (y = x)) as [->|Hne].
  - rewrite filter_cons_False by naive_solver.
    rewrite filter_all; [simpl; lia|].
    apply Forall_forall. intros z Hz ->. done.
  - rewrite filter_cons_True by done. simpl. lia.
Qed.

Lemma take_filter_take (x : list N) (l : list (list N)) :
  NoDup l →
  take 49 (filter (λ y, y ≠ x) (take 50 l))
  = take 49 (filter (λ y, y ≠ x) l).
Proof.
  intros Hnd. destruct (decide (length l ≤ 50)%nat) as [Hle|Hgt].
  - by rewrite (take_ge l 50).
  - rewrite <- (take_drop 50 l) at 2. rewrite filter_app.
    rewrite take_app_le; [done|].
    pose proof (filter_ne_length x (take 50 l)) as Hlen.
    rewrite length_take in Hlen.
    assert (NoDup (take 50 l)) as Hnd'
      by (eapply sublist_NoDup; [done | apply sublist_take]).
    specialize (Hlen Hnd'). lia.
Qed.

Lemma addToHistory_latest `{Platform} (word : list N) (w : World)
    (looked_up : list (list N)) :
  searchHistory (state w) = take 50 (first_seen looked_up) →
  searchHistory (state (WordlyApp.addToHistory word w))
  = take 50 (first_seen (word :: looked_up)).
Proof.
  intros Hh. rewrite addToHistory_history, Hh.
  change (take APP_CONSTANTS.MAX_HISTORY_ITEMS (word :: ?l))
    with (word :: take 49 l).
  change (take 50 (first_seen (word :: looked_up)))
    with (word :: take 49 (filter (λ y, y ≠ word) (first_seen looked_up))).
  f_equal. apply take_filter_take, first_seen_NoDup.
Qed.

(** X26. After any sequence of additions to an empty history, the
    history lists the words that were added, each once, the latest first,
    cut to the 50 latest. *)
Theorem history_is_latest_first `{Platform}
    (w : World) (words : list (list N)) :
  searchHistory (state w) = [] →
  searchHistory
    (state (foldl (λ w x, WordlyApp.addToHistory x w) w words))
  = take 50 (first_seen (reverse words)).
Proof.
  intros Hempty.
  assert (∀ ws seen w0,
            searchHistory (state w0) = take 50 (first_seen seen) →
            searchHistory
              (state (foldl (λ w x, WordlyApp.addToHistory x w) w0 ws))
            = take 50 (first_seen (reverse ws ++ seen))) as Hgen.
  { induction ws as [|x ws IH]; intros seen w0 Hw0; simpl; [done|].
    rewrite reverse_cons, <- app_assoc. simpl.
    apply IH. by apply addToHistory_latest. }
  rewrite (Hgen words [] w); [by rewrite app_nil_r | by rewrite Hempty].
Qed.

Lemma history_is_latest_first_witness :
  searchHistory
    (state (foldl (λ w x, WordlyApp.addToHistory (H := RefPlatform.ref) x w)
              (fresh Sample.roomy_store)
              [js "tree"; js "leaf"; js "tree"; js "root"]))
  = [js "root"; js "tree"; js "leaf"].
Proof.
  rewrite (history_is_latest_first (H := RefPlatform.ref));
    reflexivity.
Defined.
